(** * Form parser batch job: [batch_process_documents]

    A shallow embedding of
    [components/processing/form_parser/src/main.py]: the wait on the
    long-running operation, the terminal-state check, and the walk over the
    output locations (URI split, content-type filter, download, decode,
    print).  The vendor SDKs (Document AI, Cloud Storage, logging, [re])
    are the environment: every SDK call is an oracle that returns a value
    or raises, and every observable effect is an event of the run's trace. *)

From Stdlib Require Import String Ascii List ZArith Bool Lia.
Import ListNotations.

Local Open Scope string_scope.
Local Open Scope list_scope.

(** Python's [+] on [str]; [++] stays list concatenation. *)
Infix "+++" := String.append (right associativity, at level 60).

(** ** Python strings *)

Module Str.

Definition LF : ascii := Ascii.ascii_of_nat 10.
Definition slash : ascii := "/"%char.

(** [c in s] *)
Fixpoint mem (c : ascii) (s : string) : bool :=
  match s with
  | EmptyString => false
  | String a s' => Ascii.eqb a c || mem c s'
  end.

(** [s.startswith(p)], returning what follows [p]. *)
Fixpoint strip_prefix (p s : string) : option string :=
  match p, s with
  | EmptyString, _ => Some s
  | String a p', String b s' =>
      if Ascii.eqb a b then strip_prefix p' s' else None
  | String _ _, EmptyString => None
  end.

Definition startswith (p s : string) : bool :=
  match strip_prefix p s with Some _ => true | None => false end.

(** [p in s] for a substring [p]. *)
Fixpoint contains (p s : string) : bool :=
  startswith p s ||
  match s with
  | EmptyString => false
  | String _ s' => contains p s'
  end.

End Str.

(** ** The fragment of Python's [re] that [batch_process_documents] uses

    [re.match(pattern, s)] anchors the pattern at the start of [s] and not
    at its end.  Without [re.DOTALL], [.] is any character except a line
    feed.  [.*] is greedy (longest first, then backtracks), [.*?] is lazy
    (shortest first, then extends).  A group records the text it matched. *)

Module Re.

Inductive charset : Type :=
| Dot.                      (* [.]: anything but a line feed *)

Definition accepts (cs : charset) (c : ascii) : bool :=
  match cs with
  | Dot => negb (Ascii.eqb c Str.LF)
  end.

Inductive regex : Type :=
| Lit (text : string)                    (* literal characters *)
| Star (greedy : bool) (cs : charset)    (* [cs*] and [cs*?] *)
| Group (r : regex)                      (* [( r )], not nested *)
| Seq (r1 r2 : regex).

Section Matcher.
Context {A : Type}.

(** Continuations receive the text just matched and the text left. *)
Definition cont : Type := string -> string -> option A.

Fixpoint star_greedy (p : ascii -> bool) (s : string) (k : cont)
  : option A :=
  match s with
  | String c s' =>
      if p c then
        match star_greedy p s' (fun m rest => k (String c m) rest) with
        | Some r => Some r
        | None => k "" s
        end
      else k "" s
  | EmptyString => k "" s
  end.

Fixpoint star_lazy (p : ascii -> bool) (s : string) (k : cont)
  : option A :=
  match k "" s with
  | Some r => Some r
  | None =>
      match s with
      | String c s' =>
          if p c then star_lazy p s' (fun m rest => k (String c m) rest)
          else None
      | EmptyString => None
      end
  end.
End Matcher.

(** The backtracking matcher; [caps] are the groups closed so far. *)
Fixpoint run (r : regex) (s : string) (caps : list string)
    (k : string -> string -> list string -> option (list string))
  : option (list string) :=
  match r with
  | Lit text =>
      match Str.strip_prefix text s with
      | Some rest => k text rest caps
      | None => None
      end
  | Star true cs => star_greedy (accepts cs) s (fun m rest => k m rest caps)
  | Star false cs => star_lazy (accepts cs) s (fun m rest => k m rest caps)
  | Group r' => run r' s caps (fun m rest caps' => k m rest (caps' ++ [m]))
  | Seq r1 r2 =>
      run r1 s caps (fun m1 rest1 caps1 =>
        run r2 rest1 caps1 (fun m2 rest2 caps2 => k (m1 +++ m2) rest2 caps2))
  end.

(** [re.match(r, s)]; the result is [m.groups()] when there is a match. *)
Definition match_ (r : regex) (s : string) : option (list string) :=
  run r s [] (fun _ _ caps => Some caps).

End Re.

(** The pattern of main.py line 111: the literal gs://, a lazy group of
    dots, a slash, a greedy group of dots. *)
Definition destination_pattern : Re.regex :=
  Re.Seq (Re.Lit "gs://")
    (Re.Seq (Re.Group (Re.Star false Re.Dot))
       (Re.Seq (Re.Lit "/") (Re.Group (Re.Star true Re.Dot)))).

(** Lines 111-119: [matches = re.match(...)], [if not matches: ... continue],
    [output_bucket, output_prefix = matches.groups()]. *)
Definition parse_destination (output_gcs_destination : string)
  : option (string * string) :=
  match Re.match_ destination_pattern output_gcs_destination with
  | Some [output_bucket; output_prefix] => Some (output_bucket, output_prefix)
  | _ => None
  end.

(** ** What the pattern computes

    A direct reading of the pattern, proved equal to the matcher: after the
    literal gs://, the bucket runs to the first slash and may hold no line
    feed; the prefix runs from there to the first line feed or to the end. *)

Module Split.

(** The lazy group followed by the slash. *)
Fixpoint split_bucket (s : string) : option (string * string) :=
  match s with
  | EmptyString => None
  | String c s' =>
      if Ascii.eqb c Str.slash then Some ("", s')
      else if Ascii.eqb c Str.LF then None
      else match split_bucket s' with
           | Some (b, r) => Some (String c b, r)
           | None => None
           end
  end.

(** The greedy group: up to the first line feed. *)
Fixpoint take_line (s : string) : string :=
  match s with
  | EmptyString => ""
  | String c s' => if Ascii.eqb c Str.LF then "" else String c (take_line s')
  end.

Fixpoint drop_line (s : string) : string :=
  match s with
  | EmptyString => ""
  | String c s' => if Ascii.eqb c Str.LF then s else drop_line s'
  end.

Definition split_destination (s : string) : option (string * string) :=
  match Str.strip_prefix "gs://" s with
  | None => None
  | Some t =>
      match split_bucket t with
      | Some (b, r) => Some (b, take_line r)
      | None => None
      end
  end.

End Split.

(** ** Exceptions, effects and the run monad *)

(** The exception classes the [except] clause of line 94 tells apart. *)
Inductive sdk_class : Type :=
| RetryError
| InternalServerError
| OtherError (class_name : string).

(** An exception raised inside an SDK call; [message] is [e.message]. *)
Record sdk_exception : Type :=
  { exc_class : sdk_class; message : string }.

Inductive exn : Type :=
| ValueError (msg : string)    (* the program's own [raise], line 102 *)
| Sdk (e : sdk_exception).     (* propagated from an SDK call *)

Inductive result (A : Type) : Type :=
| Ok (a : A)
| Err (e : sdk_exception).
Arguments Ok {A} a.
Arguments Err {A} e.

(** ** The data the SDKs hand to the program *)

(** [documentai.Document]; only [text] is read. *)
Record Document : Type := { text : string }.

(** [storage.Blob] as listed; [content_type] may be [None]. *)
Record Blob : Type :=
  { name : string;
    content_type : option string;
    download_as_bytes : result (list Byte.byte) }.

(** The iterator [list_blobs] returns: the blobs it yields, then either the
    end of the iteration or the exception a page fetch raised. *)
Record BlobIterator : Type :=
  { items : list Blob; failure : option sdk_exception }.

(** [documentai.BatchProcessMetadata.State]. *)
Inductive State : Type :=
| STATE_UNSPECIFIED | WAITING | RUNNING | SUCCEEDED
| CANCELLING | CANCELLED | FAILED.

Definition State_eqb (a b : State) : bool :=
  match a, b with
  | STATE_UNSPECIFIED, STATE_UNSPECIFIED | WAITING, WAITING
  | RUNNING, RUNNING | SUCCEEDED, SUCCEEDED | CANCELLING, CANCELLING
  | CANCELLED, CANCELLED | FAILED, FAILED => true
  | _, _ => false
  end.

Record IndividualProcessStatus : Type :=
  { input_gcs_source : string; output_gcs_destination : string }.

Record BatchProcessMetadata : Type :=
  { state : State;
    state_message : string;
    individual_process_statuses : list IndividualProcessStatus }.

(** [documentai.BatchProcessMetadata(m)]: a copy of [m], or the empty
    message when [m] is [None]. *)
Definition BatchProcessMetadata_of (m : option BatchProcessMetadata)
  : BatchProcessMetadata :=
  match m with
  | Some md => md
  | None => {| state := STATE_UNSPECIFIED; state_message := "";
               individual_process_statuses := [] |}
  end.

(** The long-running operation: [operation.operation.name],
    [operation.result(timeout=...)] (its value is discarded) and
    [operation.metadata]. *)
Record Operation : Type :=
  { operation_name : string;
    operation_result : Z -> result unit;
    operation_metadata : option BatchProcessMetadata }.

Record BatchProcessRequest : Type :=
  { request_name : string;
    gcs_uri_prefix : option string;     (* input_documents.gcs_prefix *)
    gcs_uri : option string;            (* document_output_config *)
    output_field_mask : option string }.

Record DocumentProcessorServiceClient : Type :=
  { client_batch_process_documents : BatchProcessRequest -> result Operation }.

Record StorageClient : Type :=
  { list_blobs : string -> string -> BlobIterator }.

(** The SDK entry points the function calls. *)
Record Environment : Type :=
  { new_DocumentProcessorServiceClient :
      string -> result DocumentProcessorServiceClient;
    new_storage_Client : result StorageClient;
    Document_from_json : list Byte.byte -> bool -> result Document }.

(** ** Observable effects *)

Inductive level : Type := INFO | ERROR.

Inductive sdk_call : Type :=
| CreateDocumentClient (api_endpoint : string)
| BatchProcess (request : BatchProcessRequest)
| OperationResult (timeout : Z)
| CreateStorageClient
| ListBlobs (bucket prefix : string)
| DownloadAsBytes (blob : Blob)
| FromJson (data : list Byte.byte) (ignore_unknown_fields : bool).

Inductive event : Type :=
| Log (lvl : level) (msg : string) (args : list string)
| Print (line : string)
| Call (c : sdk_call).

Inductive outcome (A : Type) : Type :=
| Returned (a : A)
| Raised (e : exn).
Arguments Returned {A} a.
Arguments Raised {A} e.

(** A computation: the events it produced, and how it ended. *)
Definition M (A : Type) : Type := (list event * outcome A)%type.

Definition ret {A} (a : A) : M A := ([], Returned a).

Definition bind {A B} (m : M A) (f : A -> M B) : M B :=
  match m with
  | (tr, Returned a) => let (tr', o) := f a in (tr ++ tr', o)
  | (tr, Raised e) => (tr, Raised e)
  end.

Definition raise {A} (e : exn) : M A := ([], Raised e).

Definition emit (ev : event) : M unit := ([ev], Returned tt).

(** An SDK call: recorded in the trace, and raising when the SDK does. *)
Definition call {A} (c : sdk_call) (r : result A) : M A :=
  ([Call c], match r with Ok a => Returned a | Err e => Raised (Sdk e) end).

(** [try: body / except ...: handler]; the handler declines ([None]) the
    exceptions the clause does not name. *)
Definition try_except {A} (body : M A) (handler : exn -> option (M A)) : M A :=
  match body with
  | (tr, Raised e) =>
      match handler e with
      | Some h => let (tr', o) := h in (tr ++ tr', o)
      | None => (tr, Raised e)
      end
  | done => done
  end.

Notation "x <- m ;; k" := (bind m (fun x => k))
  (at level 61, m at next level, right associativity).
Notation "m ;; k" := (bind m (fun _ => k))
  (at level 61, right associativity).

Definition trace {A} (m : M A) : list event := fst m.
Definition ending {A} (m : M A) : outcome A := snd m.

(** [m] run after the events [tr] have already happened. *)
Definition after {A} (tr : list event) (m : M A) : M A :=
  (tr ++ trace m, ending m).

Definition logging_info (msg : string) : M unit := emit (Log INFO msg []).
Definition logging_error (msg : string) (args : list string) : M unit :=
  emit (Log ERROR msg args).
Definition print (line : string) : M unit := emit (Print line).

(** [str(x)] for an optional string, as an f-string renders it. *)
Definition py_str (o : option string) : string :=
  match o with Some s => s | None => "None" end.

(** ** The program *)

Definition default_timeout : Z := 400.

(** Lines 90-95: the wait on the operation.  The [except] clause names
    [RetryError] and [InternalServerError]; anything else propagates. *)
Definition catches (e : sdk_exception) : bool :=
  match exc_class e with
  | RetryError | InternalServerError => true
  | OtherError _ => false
  end.

Definition wait (operation : Operation) (timeout : Z) : M unit :=
  try_except
    (logging_info ("Waiting for operation " +++ operation_name operation
                   +++ " to complete...") ;;
     call (OperationResult timeout) (operation_result operation timeout))
    (fun e =>
       match e with
       | Sdk e' => if catches e' then Some (logging_error (message e') [])
                   else None
       | ValueError _ => None
       end).

(** Lines 101-102. *)
Definition check_state (metadata : BatchProcessMetadata) : M unit :=
  if negb (State_eqb (state metadata) SUCCEEDED)
  then raise (ValueError ("Batch Process Failed: " +++ state_message metadata))
  else ret tt.

(** [blob.content_type != "application/json"], line 127. *)
Definition not_json (blob : Blob) : bool :=
  match content_type blob with
  | Some ct => negb (String.eqb ct "application/json")
  | None => true
  end.

(** Lines 126-141: the body of the loop over the listed blobs. *)
Definition process_blob (env : Environment) (blob : Blob) : M unit :=
  if not_json blob then
    logging_info ("Skipping non-supported file: " +++ name blob
                  +++ " - Mimetype: " +++ py_str (content_type blob))
  else
    logging_info ("Fetching " +++ name blob) ;;
    data <- call (DownloadAsBytes blob) (download_as_bytes blob) ;;
    document <- call (FromJson data true) (Document_from_json env data true) ;;
    print "The document contains the following text:" ;;
    print (text document).

(** Line 125: [for blob in output_blobs]. *)
Fixpoint for_blobs (env : Environment) (blobs : list Blob) : M unit :=
  match blobs with
  | [] => ret tt
  | blob :: rest => process_blob env blob ;; for_blobs env rest
  end.

Definition for_output_blobs (env : Environment) (output_blobs : BlobIterator)
  : M unit :=
  for_blobs env (items output_blobs) ;;
  match failure output_blobs with
  | Some e => raise (Sdk e)
  | None => ret tt
  end.

(** Lines 109-141: the body of the loop over the process statuses. *)
Definition process_status (env : Environment) (storage_client : StorageClient)
    (process : IndividualProcessStatus) : M unit :=
  match parse_destination (output_gcs_destination process) with
  | None =>
      logging_error "Could not parse output GCS destination:"
        [output_gcs_destination process]
  | Some (output_bucket, output_prefix) =>
      emit (Call (ListBlobs output_bucket output_prefix)) ;;
      for_output_blobs env
        (list_blobs storage_client output_bucket output_prefix)
  end.

(** Line 108: [for process in list(metadata.individual_process_statuses)],
    the result walker. *)
Fixpoint walk (env : Environment) (storage_client : StorageClient)
    (statuses : list IndividualProcessStatus) : M unit :=
  match statuses with
  | [] => ret tt
  | process :: rest =>
      process_status env storage_client process ;;
      walk env storage_client rest
  end.

(** Lines 99-141: what follows the wait. *)
Definition check_and_walk (env : Environment) (operation : Operation)
  : M unit :=
  let metadata := BatchProcessMetadata_of (operation_metadata operation) in
  check_state metadata ;;
  storage_client <- call CreateStorageClient (new_storage_Client env) ;;
  logging_info "Output files:" ;;
  walk env storage_client (individual_process_statuses metadata).

(** Lines 58-82: the request. *)
Definition api_endpoint_of (location : option string) : string :=
  py_str location +++ "-documentai.googleapis.com".

Definition processor_path (project_id location processor_id : option string)
  : string :=
  "projects/" +++ py_str project_id +++ "/locations/" +++ py_str location
  +++ "/processors/" +++ py_str processor_id.

Definition make_request
    (project_id location processor_id gcs_output_uri
       gcs_input_prefix field_mask : option string)
  : BatchProcessRequest :=
  {| request_name := processor_path project_id location processor_id;
     gcs_uri_prefix := gcs_input_prefix;
     gcs_uri := gcs_output_uri;
     output_field_mask := field_mask |}.

(** [batch_process_documents], lines 38-141. *)
Definition batch_process_documents (env : Environment)
    (project_id location processor_id gcs_output_uri
       gcs_input_prefix field_mask : option string)
    (timeout : Z) : M unit :=
  let opts := api_endpoint_of location in
  client <- call (CreateDocumentClient opts)
              (new_DocumentProcessorServiceClient env opts) ;;
  let request :=
    make_request project_id location processor_id gcs_output_uri
      gcs_input_prefix field_mask in
  operation <- call (BatchProcess request)
                 (client_batch_process_documents client request) ;;
  wait operation timeout ;;
  check_and_walk env operation.

(** ** Reading a trace *)

(** [str(e)] of the exception that ended a run. *)
Definition exn_message (e : exn) : string :=
  match e with
  | ValueError msg => msg
  | Sdk e' => message e'
  end.

(** The lines written to standard output, in order. *)
Definition printed (tr : list event) : list string :=
  flat_map (fun ev => match ev with Print line => [line] | _ => [] end) tr.

(** The blobs whose bytes were requested, in order. *)
Definition downloaded (tr : list event) : list Blob :=
  flat_map (fun ev =>
              match ev with Call (DownloadAsBytes b) => [b] | _ => [] end) tr.

(** Every decode attempt of [tr] is lenient and is made on the bytes of a
    blob of type application/json that [tr] downloaded. *)
Definition decodes_only_json_downloads (tr : list event) : Prop :=
  forall data flag,
    In (Call (FromJson data flag)) tr ->
    flag = true /\
    exists b, In (Call (DownloadAsBytes b)) tr /\
              not_json b = false /\ download_as_bytes b = Ok data.

(** A download is only ever requested for a JSON-typed blob. *)
Definition download_of_json (ev : event) : Prop :=
  match ev with
  | Call (DownloadAsBytes b) => not_json b = false
  | _ => True
  end.

(** ** The walk as the specification words it

    Section 4.3 and the output description: per output-location entry, in
    the order of the metadata, the JSON-typed objects in the order of the
    listing, each giving its source location and its text. *)

Definition blob_document (env : Environment) (blob : Blob) : result Document :=
  match download_as_bytes blob with
  | Ok data => Document_from_json env data true
  | Err e => Err e
  end.

Definition json_blobs (blobs : list Blob) : list Blob :=
  filter (fun blob => negb (not_json blob)) blobs.

Definition listed (storage_client : StorageClient)
    (process : IndividualProcessStatus) : list Blob :=
  match parse_destination (output_gcs_destination process) with
  | Some (bucket, prefix) => items (list_blobs storage_client bucket prefix)
  | None => []
  end.

Definition source_and_text (env : Environment) (blob : Blob)
  : list (string * string) :=
  match blob_document env blob with
  | Ok document => [(name blob, text document)]
  | Err _ => []
  end.

Definition emitted_pairs (env : Environment) (storage_client : StorageClient)
    (statuses : list IndividualProcessStatus) : list (string * string) :=
  flat_map (fun process =>
              flat_map (source_and_text env)
                (json_blobs (listed storage_client process)))
    statuses.

(** The JSON-typed objects of every parsable entry, in the order of the
    metadata and then of the listing. *)
Definition visited (storage_client : StorageClient)
    (statuses : list IndividualProcessStatus) : list Blob :=
  flat_map (fun process => json_blobs (listed storage_client process))
    statuses.

(** What line 140 prints before each text. *)
Definition text_header : string := "The document contains the following text:".

(** Standard output for a sequence of emitted pairs. *)
Definition lines_of (pairs : list (string * string)) : list string :=
  flat_map (fun p => [text_header; snd p]) pairs.

(** [m] prints an initial segment of [expected], and all of it when it
    returns. *)
Definition prints_prefix_of (m : M unit) (expected : list string) : Prop :=
  (ending m = Returned tt -> printed (trace m) = expected)
  /\ exists rest, expected = printed (trace m) ++ rest.

(** No SDK call of the walk raises: every listing ends normally and every
    JSON-typed blob downloads and decodes. *)
Definition blob_readable (env : Environment) (blob : Blob) : Prop :=
  not_json blob = false -> exists document, blob_document env blob = Ok document.

Definition listing_succeeds (env : Environment) (storage_client : StorageClient)
    (process : IndividualProcessStatus) : Prop :=
  match parse_destination (output_gcs_destination process) with
  | Some (bucket, prefix) =>
      failure (list_blobs storage_client bucket prefix) = None /\
      Forall (blob_readable env)
        (items (list_blobs storage_client bucket prefix))
  | None => True
  end.

Definition walk_succeeds (env : Environment) (storage_client : StorageClient)
    (statuses : list IndividualProcessStatus) : Prop :=
  Forall (listing_succeeds env storage_client) statuses.

(** ** Submission and the outcome of the wait *)

(** Lines 58-85 succeed and hand back [operation]. *)
Definition submitted (env : Environment)
    (project_id location processor_id gcs_output_uri
       gcs_input_prefix field_mask : option string)
    (operation : Operation) : Prop :=
  exists client,
    new_DocumentProcessorServiceClient env (api_endpoint_of location)
    = Ok client /\
    client_batch_process_documents client
      (make_request project_id location processor_id gcs_output_uri
         gcs_input_prefix field_mask)
    = Ok operation.

Definition submit_events
    (project_id location processor_id gcs_output_uri
       gcs_input_prefix field_mask : option string) : list event :=
  [Call (CreateDocumentClient (api_endpoint_of location));
   Call (BatchProcess
           (make_request project_id location processor_id gcs_output_uri
              gcs_input_prefix field_mask))].

(** The wait either returns, or raises what line 94 catches. *)
Definition wait_passes (operation : Operation) (timeout : Z) : Prop :=
  match operation_result operation timeout with
  | Ok _ => True
  | Err e => catches e = true
  end.

Definition waiting_events (operation : Operation) (timeout : Z) : list event :=
  [Log INFO ("Waiting for operation " +++ operation_name operation
             +++ " to complete...") [];
   Call (OperationResult timeout)].

(** Lines 104-141, reached once the check has passed. *)
Definition open_storage_and_walk (env : Environment)
    (metadata : BatchProcessMetadata) : M unit :=
  storage_client <- call CreateStorageClient (new_storage_Client env) ;;
  logging_info "Output files:" ;;
  walk env storage_client (individual_process_statuses metadata).

(** A computation that raises nothing of its own: it can only end with an
    exception that an SDK call raised. *)
Definition sdk_only {A} (m : M A) : Prop :=
  forall e, ending m = Raised e -> exists e', e = Sdk e'.

(** ** A concrete run

    The end-to-end scenario of the specification: one output location
    gs://out-bucket/run/0/ holding 0.json (application/json) and 0.pdf.txt
    (text/plain). *)

Module Scenario.

Import Byte.

Definition braces : list byte := [x7b; x7d].

Definition parse_error : sdk_exception :=
  {| exc_class := OtherError "ParseError";
     message := "Failed to parse JSON" |}.

Definition from_json (data : list byte) (ignore_unknown_fields : bool)
  : result Document :=
  match data with
  | [x7b; x7d] => Ok {| text := "Invoice 42" |}
  | _ => Err parse_error
  end.

Definition json_blob : Blob :=
  {| name := "run/0/0.json";
     content_type := Some "application/json";
     download_as_bytes := Ok braces |}.

Definition text_blob : Blob :=
  {| name := "run/0/0.pdf.txt";
     content_type := Some "text/plain";
     download_as_bytes := Ok [] |}.

Definition broken_blob : Blob :=
  {| name := "run/0/broken.json";
     content_type := Some "application/json";
     download_as_bytes := Ok [x7b] |}.

Definition storage_of (blobs : list Blob) : StorageClient :=
  {| list_blobs := fun bucket prefix =>
       if String.eqb bucket "out-bucket" && String.eqb prefix "run/0/"
       then {| items := blobs; failure := None |}
       else {| items := []; failure := None |} |}.

Definition status (destination : string) : IndividualProcessStatus :=
  {| input_gcs_source := "gs://in-bucket/forms/form.pdf";
     output_gcs_destination := destination |}.

Definition metadata (s : State) (msg : string)
    (destinations : list string) : BatchProcessMetadata :=
  {| state := s; state_message := msg;
     individual_process_statuses := map status destinations |}.

Definition operation (r : result unit) (md : BatchProcessMetadata)
  : Operation :=
  {| operation_name := "projects/p/locations/us/operations/1";
     operation_result := fun _ => r;
     operation_metadata := Some md |}.

Definition env_of (op : Operation) (blobs : list Blob) : Environment :=
  {| new_DocumentProcessorServiceClient := fun _ =>
       Ok {| client_batch_process_documents := fun _ => Ok op |};
     new_storage_Client := Ok (storage_of blobs);
     Document_from_json := from_json |}.

(** [batch_process_documents] as the script's entry point calls it. *)
Definition run (op : Operation) (blobs : list Blob) : M unit :=
  batch_process_documents (env_of op blobs)
    (Some "p") (Some "us") (Some "ac27785bf4bee278")
    (Some "gs://out-bucket/run/") (Some "gs://in-bucket/forms/") None
    default_timeout.

Definition deadline_exceeded : sdk_exception :=
  {| exc_class := RetryError;
     message := "Deadline of 400.0s exceeded" |}.

Definition internal_error : sdk_exception :=
  {| exc_class := InternalServerError; message := "500 Internal error" |}.

Definition invalid_argument : sdk_exception :=
  {| exc_class := OtherError "InvalidArgument";
     message := "400 Failed to process all documents" |}.

(** What [operation.result] raises when the local wait runs out:
    [concurrent.futures.TimeoutError], a class line 94 does not name. *)
Definition timeout_error : sdk_exception :=
  {| exc_class := OtherError "TimeoutError";
     message := "Operation did not complete within the designated timeout of 400 seconds." |}.

(** A transient failure of another class than the two of line 94. *)
Definition service_unavailable : sdk_exception :=
  {| exc_class := OtherError "ServiceUnavailable";
     message := "503 Service Unavailable" |}.

End Scenario.

(** ** Further readings of a trace *)

(** What [f] picks out of each event, in order. *)
Definition observe {X : Type} (f : event -> list X) (tr : list event)
  : list X :=
  flat_map f tr.

Definition listing_of (ev : event) : list (string * string) :=
  match ev with
  | Call (ListBlobs bucket prefix) => [(bucket, prefix)]
  | _ => []
  end.

Definition error_of (ev : event) : list (string * list string) :=
  match ev with
  | Log ERROR msg args => [(msg, args)]
  | _ => []
  end.

Definition submission_of (ev : event) : list BatchProcessRequest :=
  match ev with
  | Call (BatchProcess request) => [request]
  | _ => []
  end.

Definition wait_of (ev : event) : list Z :=
  match ev with
  | Call (OperationResult timeout) => [timeout]
  | _ => []
  end.

Definition storage_call_of (ev : event) : list sdk_call :=
  match ev with
  | Call CreateStorageClient => [CreateStorageClient]
  | Call (ListBlobs bucket prefix) => [ListBlobs bucket prefix]
  | Call (DownloadAsBytes blob) => [DownloadAsBytes blob]
  | Call (FromJson data flag) => [FromJson data flag]
  | _ => []
  end.

(** [m] shows to [f] an initial segment of [expected], and all of it when
    it returns. *)
Definition observes_prefix_of {X : Type} (f : event -> list X)
    (m : M unit) (expected : list X) : Prop :=
  (ending m = Returned tt -> observe f (trace m) = expected)
  /\ exists rest, expected = observe f (trace m) ++ rest.

(** The events the loop over the blobs can produce. *)
Definition blob_event (ev : event) : Prop :=
  match ev with
  | Log INFO _ _ | Print _
  | Call (DownloadAsBytes _) | Call (FromJson _ _) => True
  | _ => False
  end.

(** The events the walk can produce. *)
Definition walk_event (ev : event) : Prop :=
  match ev with
  | Log ERROR _ _ | Call (ListBlobs _ _) => True
  | _ => blob_event ev
  end.

(** The events that can follow the terminal-state check. *)
Definition after_check_event (ev : event) : Prop :=
  match ev with
  | Call CreateStorageClient => True
  | _ => walk_event ev
  end.

Definition decode_of (ev : event) : list (list Byte.byte * bool) :=
  match ev with
  | Call (FromJson data flag) => [(data, flag)]
  | _ => []
  end.

(** The decode that a download of [blob] leads to: a lenient one of its
    bytes, or none when the download raises. *)
Definition payload_of (blob : Blob) : list (list Byte.byte * bool) :=
  match download_as_bytes blob with
  | Ok data => [(data, true)]
  | Err _ => []
  end.

(** The (bucket, prefix) of every parsable entry, in order. *)
Definition parsed_destinations (statuses : list IndividualProcessStatus)
  : list (string * string) :=
  flat_map (fun process =>
              match parse_destination (output_gcs_destination process) with
              | Some bucket_prefix => [bucket_prefix]
              | None => []
              end) statuses.

(** The error record of every unparsable entry, in order. *)
Definition unparsed_records (statuses : list IndividualProcessStatus)
  : list (string * list string) :=
  flat_map (fun process =>
              match parse_destination (output_gcs_destination process) with
              | Some _ => []
              | None => [("Could not parse output GCS destination:",
                          [output_gcs_destination process])]
              end) statuses.

(** ** The log of a run *)

Definition log_of (ev : event) : list (level * string * list string) :=
  match ev with
  | Log lvl msg args => [(lvl, msg, args)]
  | _ => []
  end.

(** The one record the loop body of lines 126-141 logs for [blob]. *)
Definition blob_log (blob : Blob) : level * string * list string :=
  if not_json blob then
    (INFO, "Skipping non-supported file: " +++ name blob
           +++ " - Mimetype: " +++ py_str (content_type blob), [])
  else (INFO, "Fetching " +++ name blob, []).

(** The records the loop body of lines 109-141 logs for an entry whose SDK
    calls all succeed. *)
Definition status_log (storage_client : StorageClient)
    (process : IndividualProcessStatus)
  : list (level * string * list string) :=
  match parse_destination (output_gcs_destination process) with
  | None => [(ERROR, "Could not parse output GCS destination:",
              [output_gcs_destination process])]
  | Some (bucket, prefix) =>
      flat_map (fun blob => [blob_log blob])
        (items (list_blobs storage_client bucket prefix))
  end.

Definition walk_log (storage_client : StorageClient)
    (statuses : list IndividualProcessStatus)
  : list (level * string * list string) :=
  flat_map (status_log storage_client) statuses.

(** The records of lines 90-95: the wait is announced, and an exception
    that line 94 catches is logged as an error. *)
Definition wait_log (operation : Operation) (timeout : Z)
  : list (level * string * list string) :=
  (INFO, "Waiting for operation " +++ operation_name operation
         +++ " to complete...", [])
  :: match operation_result operation timeout with
     | Ok _ => []
     | Err e => if catches e then [(ERROR, message e, [])] else []
     end.

(** ** The script, lines 27-35 and 144-153 *)

(** [os.environ]. *)
Definition Environ : Type := string -> option string.

(** [os.getenv(key)]: [None] when the variable is not set. *)
Definition getenv (os_environ : Environ) (key : string) : option string :=
  os_environ key.

(** [os.getenv(key, 0)] as an f-string renders it: the variable's text, or
    the text of the integer default. *)
Definition getenv_or_zero (os_environ : Environ) (key : string) : string :=
  match os_environ key with
  | Some value => value
  | None => "0"
  end.

Definition TASK_INDEX (os_environ : Environ) : string :=
  getenv_or_zero os_environ "CLOUD_RUN_TASK_INDEX".
Definition TASK_ATTEMPT (os_environ : Environ) : string :=
  getenv_or_zero os_environ "CLOUD_RUN_TASK_ATTEMPT".
Definition PROJECT_ID (os_environ : Environ) : option string :=
  getenv os_environ "PROJECT_ID".
Definition LOCATION (os_environ : Environ) : option string :=
  getenv os_environ "LOCATION".
Definition PROCESSOR_ID (os_environ : Environ) : option string :=
  getenv os_environ "PROCESSOR_ID".
Definition GCS_OUTPUT_PREFIX (os_environ : Environ) : option string :=
  getenv os_environ "GCS_OUTPUT_PREFIX".
Definition GCS_INPUT_PREFIX (os_environ : Environ) : option string :=
  getenv os_environ "GCS_INPUT_PREFIX".

(** The call of lines 147-151: [field_mask] and [timeout] keep their
    defaults. *)
Definition script_call (os_environ : Environ) (env : Environment) : M unit :=
  batch_process_documents env
    (PROJECT_ID os_environ) (LOCATION os_environ) (PROCESSOR_ID os_environ)
    (GCS_OUTPUT_PREFIX os_environ) (GCS_INPUT_PREFIX os_environ)
    None default_timeout.

(** Lines 145-153, the block run when the file is the script; the [name]
    read on line 152 is not used. *)
Definition main (os_environ : Environ) (env : Environment) : M unit :=
  logging_info ("Starting Task #" +++ TASK_INDEX os_environ
                +++ ", Attempt #" +++ TASK_ATTEMPT os_environ +++ "...") ;;
  script_call os_environ env ;;
  logging_info ("Completed Task #" +++ TASK_INDEX os_environ +++ ".").

(** * Facts about strings and the pattern *)

Module StrFacts.
Import Str.

Lemma app_nil_r (s : string) : s +++ "" = s.
Proof. induction s as [|a s IH]; simpl; [reflexivity | now rewrite IH]. Qed.

Lemma app_assoc (a b c : string) : (a +++ b) +++ c = a +++ b +++ c.
Proof. induction a as [|x a IH]; simpl; [reflexivity | now rewrite IH]. Qed.

Lemma mem_app (c : ascii) (a b : string) :
  mem c (a +++ b) = mem c a || mem c b.
Proof.
  induction a as [|x a IH]; simpl; [reflexivity|].
  now rewrite IH, orb_assoc.
Qed.

Lemma strip_prefix_app (p s : string) : strip_prefix p (p +++ s) = Some s.
Proof.
  induction p as [|a p IH]; simpl; [reflexivity|].
  now rewrite Ascii.eqb_refl.
Qed.

Lemma strip_prefix_inv (p s r : string) :
  strip_prefix p s = Some r -> s = p +++ r.
Proof.
  revert s; induction p as [|a p IH]; intros s; simpl.
  - now intros [= ->].
  - destruct s as [|b s]; [discriminate|].
    destruct (Ascii.eqb_spec a b) as [->|]; [|discriminate].
    intros H. now rewrite (IH _ H).
Qed.

Lemma startswith_app (p s : string) : startswith p (p +++ s) = true.
Proof. unfold startswith. now rewrite strip_prefix_app. Qed.

Lemma startswith_contains (p s : string) :
  startswith p s = true -> contains p s = true.
Proof. intros H. destruct s; simpl; rewrite H; reflexivity. Qed.

Lemma contains_app (p a b : string) : contains p (a +++ p +++ b) = true.
Proof.
  induction a as [|x a IH]; simpl.
  - apply startswith_contains, startswith_app.
  - rewrite IH. apply orb_true_r.
Qed.

End StrFacts.

Example parse_run0 :
  parse_destination "gs://out-bucket/run/0/" = Some ("out-bucket", "run/0/").
Proof. reflexivity. Qed.

Example parse_empty_prefix : parse_destination "gs://b/" = Some ("b", "").
Proof. reflexivity. Qed.

Example parse_no_slash : parse_destination "gs://bucket" = None.
Proof. reflexivity. Qed.

Example parse_other_scheme : parse_destination "s3://b/p" = None.
Proof. reflexivity. Qed.

Module SplitFacts.
Import Split.

Lemma star_greedy_total {A} (f : string -> string -> A) (s : string) :
  Re.star_greedy (Re.accepts Re.Dot) s (fun m rest => Some (f m rest))
  = Some (f (take_line s) (drop_line s)).
Proof.
  revert f; induction s as [|c s IH]; intros f; simpl; [reflexivity|].
  destruct (Ascii.eqb c Str.LF); simpl; [reflexivity|].
  now rewrite (IH (fun m rest => f (String c m) rest)).
Qed.

Lemma star_lazy_slash {A} (g : string -> string -> option A) (s : string) :
  (forall m r, g m r <> None) ->
  Re.star_lazy (Re.accepts Re.Dot) s
    (fun m rest =>
       match Str.strip_prefix "/" rest with
       | Some r => g m r
       | None => None
       end)
  = match split_bucket s with
    | Some (b, r) => g b r
    | None => None
    end.
Proof.
  revert g; induction s as [|c s IH]; intros g Hg; [reflexivity|].
  cbn [Re.star_lazy split_bucket].
  replace (Str.strip_prefix "/" (String c s))
    with (if Ascii.eqb c Str.slash then Some s else None)
    by (simpl; now rewrite (Ascii.eqb_sym c Str.slash)).
  destruct (Ascii.eqb_spec c Str.slash) as [->|Hc].
  - destruct (g "" s) eqn:E; [reflexivity | now apply Hg in E].
  - change (Re.accepts Re.Dot c) with (negb (Ascii.eqb c Str.LF)).
    destruct (Ascii.eqb c Str.LF); simpl negb; cbv iota; [reflexivity|].
    rewrite (IH (fun m r => g (String c m) r)) by (intros; apply Hg).
    now destruct (split_bucket s) as [[b r]|].
Qed.

(** The matcher on the pattern of line 111 is [split_destination]. *)
Lemma parse_destination_split (s : string) :
  parse_destination s = split_destination s.
Proof.
  unfold parse_destination, split_destination, Re.match_, destination_pattern.
  cbn [Re.run].
  destruct (Str.strip_prefix "gs://" s) as [t|]; [|reflexivity].
  rewrite (star_lazy_slash
             (fun m r =>
                Re.star_greedy (Re.accepts Re.Dot) r
                  (fun m0 rest0 => Some (([] ++ [m]) ++ [m0])))).
  - destruct (split_bucket t) as [[b r]|]; [|reflexivity].
    now rewrite (star_greedy_total (fun m0 _ => ([] ++ [b]) ++ [m0])).
  - intros m r.
    now rewrite (star_greedy_total (fun m0 _ => ([] ++ [m]) ++ [m0])).
Qed.

Lemma take_drop_line (s : string) : s = take_line s +++ drop_line s.
Proof.
  induction s as [|c s IH]; simpl; [reflexivity|].
  destruct (Ascii.eqb c Str.LF); simpl; [reflexivity | now rewrite <- IH].
Qed.

Lemma take_line_no_LF (s : string) : Str.mem Str.LF (take_line s) = false.
Proof.
  induction s as [|c s IH]; simpl; [reflexivity|].
  destruct (Ascii.eqb c Str.LF) eqn:E; simpl; [reflexivity|].
  now rewrite E.
Qed.

Lemma drop_line_head (s : string) :
  drop_line s = "" \/ exists r, drop_line s = String Str.LF r.
Proof.
  induction s as [|c s IH]; simpl; [now left|].
  destruct (Ascii.eqb_spec c Str.LF) as [->|]; [right; now exists s | exact IH].
Qed.

Lemma take_line_id (s : string) :
  Str.mem Str.LF s = false -> take_line s = s.
Proof.
  induction s as [|c s IH]; simpl; [reflexivity|].
  intros H; apply orb_false_iff in H as [Hc Hs].
  rewrite Hc. now rewrite IH.
Qed.

Lemma drop_line_nil (s : string) :
  Str.mem Str.LF s = false -> drop_line s = "".
Proof.
  induction s as [|c s IH]; simpl; [reflexivity|].
  intros H; apply orb_false_iff in H as [Hc Hs].
  rewrite Hc. now apply IH.
Qed.

Lemma split_bucket_app (b r : string) :
  Str.mem Str.slash b = false -> Str.mem Str.LF b = false ->
  split_bucket (b +++ "/" +++ r) = Some (b, r).
Proof.
  induction b as [|c b IH]; simpl in *; [reflexivity|].
  intros H1 H2.
  apply orb_false_iff in H1 as [-> H1], H2 as [-> H2].
  now rewrite IH.
Qed.

Lemma split_bucket_no_slash (b : string) :
  Str.mem Str.slash b = false -> split_bucket b = None.
Proof.
  induction b as [|c b IH]; simpl; [reflexivity|].
  intros H; apply orb_false_iff in H as [-> H].
  destruct (Ascii.eqb c Str.LF); [reflexivity|].
  now rewrite IH.
Qed.

Lemma split_bucket_inv (s b r : string) :
  split_bucket s = Some (b, r) ->
  s = b +++ "/" +++ r /\
  Str.mem Str.slash b = false /\ Str.mem Str.LF b = false.
Proof.
  revert b; induction s as [|c s IH]; intros b; simpl; [discriminate|].
  destruct (Ascii.eqb_spec c Str.slash) as [->|Hc].
  - intros [= <- <-]. now repeat split.
  - destruct (Ascii.eqb c Str.LF) eqn:E; [discriminate|].
    destruct (split_bucket s) as [[b' r']|]; [|discriminate].
    intros [= <- <-].
    destruct (IH b' eq_refl) as (-> & H1 & H2).
    simpl. rewrite E, H1, H2.
    repeat split.
    now apply Ascii.eqb_neq in Hc as ->.
Qed.

Lemma no_separator_no_scheme (s : string) :
  Str.contains "://" s = false -> Str.strip_prefix "gs://" s = None.
Proof.
  intros H.
  destruct (Str.strip_prefix "gs://" s) as [t|] eqn:E; [|reflexivity].
  apply StrFacts.strip_prefix_inv in E; subst s.
  pose proof (StrFacts.contains_app "://" "gs" t) as C.
  change ("gs" +++ "://" +++ t) with ("gs://" +++ t) in C.
  congruence.
Qed.

End SplitFacts.



(** * Facts about runs *)

Section RunFacts.

Context {A B : Type}.

Lemma bind_returned (m : M A) (f : A -> M B) (a : A) :
  ending m = Returned a -> bind m f = after (trace m) (f a).
Proof.
  destruct m as [tr o]; simpl; intros ->.
  unfold bind, after, trace, ending. now destruct (f a).
Qed.

Lemma bind_raised (m : M A) (f : A -> M B) (e : exn) :
  ending m = Raised e -> bind m f = (trace m, Raised e).
Proof. destruct m as [tr o]; simpl; now intros ->. Qed.

Lemma trace_bind (m : M A) (f : A -> M B) :
  trace (bind m f) = trace m \/
  exists a, ending m = Returned a /\ trace (bind m f) = trace m ++ trace (f a).
Proof.
  destruct m as [tr [a|e]]; [right | now left].
  exists a. rewrite (bind_returned _ _ a); [now split | reflexivity].
Qed.

(** A property of every event of a run passes through [bind]. *)
Lemma Forall_trace_bind (Q : event -> Prop) (m : M A) (f : A -> M B) :
  Forall Q (trace m) -> (forall a, Forall Q (trace (f a))) ->
  Forall Q (trace (bind m f)).
Proof.
  intros Hm Hf.
  destruct (trace_bind m f) as [-> | (a & _ & ->)]; [exact Hm|].
  apply Forall_app; split; [exact Hm | apply Hf].
Qed.

End RunFacts.

Lemma trace_after {A} (tr : list event) (m : M A) :
  trace (after tr m) = tr ++ trace m.
Proof. reflexivity. Qed.

Lemma ending_after {A} (tr : list event) (m : M A) :
  ending (after tr m) = ending m.
Proof. reflexivity. Qed.

Lemma after_nil {A} (m : M A) : after [] m = m.
Proof. now destruct m. Qed.

Lemma after_after {A} (t1 t2 : list event) (m : M A) :
  after t1 (after t2 m) = after (t1 ++ t2) m.
Proof. unfold after, trace, ending; simpl. now rewrite app_assoc. Qed.

Lemma emit_bind {B} (ev : event) (k : M B) :
  (emit ev ;; k) = after [ev] k.
Proof. now apply (bind_returned (emit ev) (fun _ => k) tt). Qed.

Lemma printed_app (t1 t2 : list event) :
  printed (t1 ++ t2) = printed t1 ++ printed t2.
Proof. apply flat_map_app. Qed.

Lemma downloaded_app (t1 t2 : list event) :
  downloaded (t1 ++ t2) = downloaded t1 ++ downloaded t2.
Proof. apply flat_map_app. Qed.

Lemma In_downloaded (b : Blob) (tr : list event) :
  In (Call (DownloadAsBytes b)) tr <-> In b (downloaded tr).
Proof.
  unfold downloaded. rewrite in_flat_map. split.
  - intros H. exists (Call (DownloadAsBytes b)). split; [exact H | now left].
  - intros (ev & Hin & Hb).
    destruct ev as [| |[]]; simpl in Hb; try contradiction.
    now destruct Hb as [<-|[]].
Qed.

Lemma not_json_spec (blob : Blob) :
  not_json blob = true <-> content_type blob <> Some "application/json".
Proof.
  unfold not_json. destruct (content_type blob) as [ct|].
  - rewrite negb_true_iff. destruct (String.eqb_spec ct "application/json").
    + subst. split; [discriminate | now intros []].
    + split; [congruence | reflexivity].
  - split; [discriminate | reflexivity].
Qed.

Lemma State_eqb_spec (a b : State) : State_eqb a b = true <-> a = b.
Proof. destruct a, b; simpl; split; congruence. Qed.

(** ** The wait, lines 90-95 *)

Lemma wait_returns (operation : Operation) (timeout : Z) :
  operation_result operation timeout = Ok tt ->
  wait operation timeout = (waiting_events operation timeout, Returned tt).
Proof. unfold wait, call; simpl. now intros ->. Qed.

Lemma wait_catches (operation : Operation) (timeout : Z) (e : sdk_exception) :
  operation_result operation timeout = Err e -> catches e = true ->
  wait operation timeout
  = (waiting_events operation timeout ++ [Log ERROR (message e) []],
     Returned tt).
Proof. unfold wait, call; simpl. now intros -> ->. Qed.

Lemma wait_propagates (operation : Operation) (timeout : Z)
    (e : sdk_exception) :
  operation_result operation timeout = Err e -> catches e = false ->
  wait operation timeout = (waiting_events operation timeout, Raised (Sdk e)).
Proof. unfold wait, call; simpl. now intros -> ->. Qed.

Lemma wait_passes_returned (operation : Operation) (timeout : Z) :
  wait_passes operation timeout ->
  ending (wait operation timeout) = Returned tt.
Proof.
  unfold wait_passes.
  destruct (operation_result operation timeout) as [[]|e] eqn:E; intros H.
  - now rewrite wait_returns.
  - now rewrite (wait_catches _ _ e).
Qed.

(** ** Submission, lines 58-85 *)

Lemma run_after_submit (env : Environment)
    (project_id location processor_id gcs_output_uri
       gcs_input_prefix field_mask : option string)
    (timeout : Z) (operation : Operation) :
  submitted env project_id location processor_id gcs_output_uri
    gcs_input_prefix field_mask operation ->
  batch_process_documents env project_id location processor_id gcs_output_uri
    gcs_input_prefix field_mask timeout
  = after (submit_events project_id location processor_id gcs_output_uri
             gcs_input_prefix field_mask)
      (wait operation timeout ;; check_and_walk env operation).
Proof.
  intros (client & Hc & Ho).
  unfold batch_process_documents, submit_events.
  rewrite (bind_returned _ _ client) by (unfold call; now rewrite Hc).
  rewrite (bind_returned _ _ operation) by (unfold call; now rewrite Ho).
  now rewrite after_after.
Qed.

Lemma run_after_wait (env : Environment)
    (project_id location processor_id gcs_output_uri
       gcs_input_prefix field_mask : option string)
    (timeout : Z) (operation : Operation) :
  submitted env project_id location processor_id gcs_output_uri
    gcs_input_prefix field_mask operation ->
  wait_passes operation timeout ->
  batch_process_documents env project_id location processor_id gcs_output_uri
    gcs_input_prefix field_mask timeout
  = after (submit_events project_id location processor_id gcs_output_uri
             gcs_input_prefix field_mask
           ++ trace (wait operation timeout))
      (check_and_walk env operation).
Proof.
  intros Hs Hw. rewrite (run_after_submit _ _ _ _ _ _ _ _ _ Hs).
  rewrite (bind_returned _ _ tt) by now apply wait_passes_returned.
  now rewrite after_after.
Qed.

(** ** The terminal-state check, lines 99-102 *)

Lemma check_state_succeeded (metadata : BatchProcessMetadata) :
  state metadata = SUCCEEDED -> check_state metadata = ret tt.
Proof. unfold check_state. now intros ->. Qed.

Lemma check_state_failed (metadata : BatchProcessMetadata) :
  state metadata <> SUCCEEDED ->
  check_state metadata
  = raise (ValueError ("Batch Process Failed: " +++ state_message metadata)).
Proof.
  unfold check_state. intros H.
  destruct (State_eqb (state metadata) SUCCEEDED) eqn:E; [|reflexivity].
  now apply State_eqb_spec in E.
Qed.

Lemma check_and_walk_failed (env : Environment) (operation : Operation) :
  let metadata := BatchProcessMetadata_of (operation_metadata operation) in
  state metadata <> SUCCEEDED ->
  check_and_walk env operation
  = raise (ValueError ("Batch Process Failed: " +++ state_message metadata)).
Proof.
  intros metadata H. unfold check_and_walk.
  fold metadata. now rewrite (check_state_failed _ H).
Qed.

Lemma check_and_walk_succeeded (env : Environment) (operation : Operation) :
  let metadata := BatchProcessMetadata_of (operation_metadata operation) in
  state metadata = SUCCEEDED ->
  check_and_walk env operation = open_storage_and_walk env metadata.
Proof.
  intros metadata H. unfold check_and_walk, open_storage_and_walk.
  fold metadata. rewrite (check_state_succeeded _ H).
  rewrite (bind_returned _ _ tt) by reflexivity. apply after_nil.
Qed.

(** ** Which exceptions the walk can end with *)

Lemma sdk_only_bind {A B} (m : M A) (f : A -> M B) :
  sdk_only m -> (forall a, sdk_only (f a)) -> sdk_only (bind m f).
Proof.
  intros Hm Hf e. destruct m as [tr [a|e0]].
  - rewrite (bind_returned _ _ a) by reflexivity. apply Hf.
  - simpl. intros [= <-]. now apply Hm.
Qed.

Lemma sdk_only_emit (ev : event) : sdk_only (emit ev).
Proof. intros e; discriminate. Qed.

Lemma sdk_only_ret {A} (a : A) : sdk_only (ret a).
Proof. intros e; discriminate. Qed.

Lemma sdk_only_call {A} (c : sdk_call) (r : result A) : sdk_only (call c r).
Proof. intros e. destruct r; simpl; [discriminate|]. intros [= <-]. eauto. Qed.

Lemma sdk_only_after {A} (tr : list event) (m : M A) :
  sdk_only m -> sdk_only (after tr m).
Proof. intros H e. apply H. Qed.

Create HintDb sdk.
#[local] Hint Resolve sdk_only_emit sdk_only_ret sdk_only_call : sdk.

Lemma sdk_only_process_blob (env : Environment) (blob : Blob) :
  sdk_only (process_blob env blob).
Proof.
  unfold process_blob, logging_info, print.
  destruct (not_json blob); [auto with sdk|].
  repeat (apply sdk_only_bind; [auto with sdk | intros]). auto with sdk.
Qed.

Lemma sdk_only_for_blobs (env : Environment) (blobs : list Blob) :
  sdk_only (for_blobs env blobs).
Proof.
  induction blobs as [|blob rest IH]; simpl; [auto with sdk|].
  apply sdk_only_bind; [apply sdk_only_process_blob | intros; exact IH].
Qed.

Lemma sdk_only_process_status (env : Environment)
    (storage_client : StorageClient) (process : IndividualProcessStatus) :
  sdk_only (process_status env storage_client process).
Proof.
  unfold process_status, logging_error, for_output_blobs.
  destruct (parse_destination _) as [[bucket prefix]|]; [|auto with sdk].
  apply sdk_only_bind; [auto with sdk | intros _].
  apply sdk_only_bind; [apply sdk_only_for_blobs | intros _].
  destruct (failure _); [|auto with sdk].
  intros e [= <-]. eauto.
Qed.

Lemma sdk_only_walk (env : Environment) (storage_client : StorageClient)
    (statuses : list IndividualProcessStatus) :
  sdk_only (walk env storage_client statuses).
Proof.
  induction statuses as [|process rest IH]; simpl; [auto with sdk|].
  apply sdk_only_bind; [apply sdk_only_process_status | intros; exact IH].
Qed.

Lemma sdk_only_open_storage_and_walk (env : Environment)
    (metadata : BatchProcessMetadata) :
  sdk_only (open_storage_and_walk env metadata).
Proof.
  unfold open_storage_and_walk, logging_info.
  apply sdk_only_bind; [auto with sdk | intros storage_client].
  apply sdk_only_bind; [auto with sdk | intros _]. apply sdk_only_walk.
Qed.

(** ** Skipped items *)

Lemma process_status_unparsed (env : Environment)
    (storage_client : StorageClient) (process : IndividualProcessStatus) :
  parse_destination (output_gcs_destination process) = None ->
  process_status env storage_client process
  = ([Log ERROR "Could not parse output GCS destination:"
        [output_gcs_destination process]],
     Returned tt).
Proof. unfold process_status. now intros ->. Qed.

Lemma walk_skips_unparsed (env : Environment) (storage_client : StorageClient)
    (process : IndividualProcessStatus)
    (rest : list IndividualProcessStatus) :
  parse_destination (output_gcs_destination process) = None ->
  walk env storage_client (process :: rest)
  = after [Log ERROR "Could not parse output GCS destination:"
             [output_gcs_destination process]]
      (walk env storage_client rest).
Proof.
  intros H. simpl.
  rewrite (bind_returned _ _ tt) by now rewrite process_status_unparsed.
  now rewrite process_status_unparsed.
Qed.

Lemma process_blob_not_json (env : Environment) (blob : Blob) :
  not_json blob = true ->
  process_blob env blob
  = ([Log INFO ("Skipping non-supported file: " +++ name blob
                +++ " - Mimetype: " +++ py_str (content_type blob)) []],
     Returned tt).
Proof. unfold process_blob. now intros ->. Qed.

Lemma for_blobs_skips_not_json (env : Environment) (blob : Blob)
    (rest : list Blob) :
  not_json blob = true ->
  for_blobs env (blob :: rest)
  = after [Log INFO ("Skipping non-supported file: " +++ name blob
                     +++ " - Mimetype: " +++ py_str (content_type blob)) []]
      (for_blobs env rest).
Proof.
  intros H. simpl.
  rewrite (bind_returned _ _ tt) by now rewrite process_blob_not_json.
  now rewrite process_blob_not_json.
Qed.

(** * The output-location pattern *)

Lemma parse_destination_well_formed (bucket prefix : string) :
  Str.mem Str.slash bucket = false -> Str.mem Str.LF bucket = false ->
  Str.mem Str.LF prefix = false ->
  parse_destination ("gs://" +++ bucket +++ "/" +++ prefix)
  = Some (bucket, prefix).
Proof.
  intros Hs Hb Hp.
  rewrite SplitFacts.parse_destination_split. unfold Split.split_destination.
  rewrite StrFacts.strip_prefix_app.
  rewrite SplitFacts.split_bucket_app by assumption.
  now rewrite SplitFacts.take_line_id.
Qed.

Lemma parse_destination_no_separator (s : string) :
  Str.contains "://" s = false -> parse_destination s = None.
Proof.
  intros H.
  rewrite SplitFacts.parse_destination_split. unfold Split.split_destination.
  now rewrite SplitFacts.no_separator_no_scheme.
Qed.

Lemma parse_destination_no_slash (bucket : string) :
  Str.mem Str.slash bucket = false ->
  parse_destination ("gs://" +++ bucket) = None.
Proof.
  intros H.
  rewrite SplitFacts.parse_destination_split. unfold Split.split_destination.
  rewrite StrFacts.strip_prefix_app.
  now rewrite SplitFacts.split_bucket_no_slash.
Qed.

Lemma parse_destination_inv (s bucket prefix : string) :
  parse_destination s = Some (bucket, prefix) ->
  exists tail,
    s = "gs://" +++ bucket +++ "/" +++ tail /\
    prefix = Split.take_line tail /\
    Str.mem Str.slash bucket = false /\ Str.mem Str.LF bucket = false.
Proof.
  rewrite SplitFacts.parse_destination_split. unfold Split.split_destination.
  destruct (Str.strip_prefix "gs://" s) as [t|] eqn:E; [|discriminate].
  destruct (Split.split_bucket t) as [[b r]|] eqn:F; [|discriminate].
  intros [= <- <-].
  apply StrFacts.strip_prefix_inv in E.
  apply SplitFacts.split_bucket_inv in F as (-> & H1 & H2).
  exists r. now repeat split.
Qed.

(** C4.  For an output location gs://bucket/prefix whose bucket holds no
    slash and where neither part holds a line feed, the pattern splits at
    the first slash after the scheme marker and gives exactly (bucket,
    prefix), the prefix possibly empty.  For an output location with no
    scheme separator the pattern gives no match; the entry is logged as an
    error, its loop body returns without raising, and the walk goes on with
    the remaining entries. *)
Theorem destination_split_or_skipped
    (env : Environment) (storage_client : StorageClient)
    (bucket prefix : string)
    (process : IndividualProcessStatus)
    (rest : list IndividualProcessStatus) :
  Str.mem Str.slash bucket = false ->
  Str.mem Str.LF bucket = false ->
  Str.mem Str.LF prefix = false ->
  Str.contains "://" (output_gcs_destination process) = false ->
  parse_destination ("gs://" +++ bucket +++ "/" +++ prefix)
  = Some (bucket, prefix)
  /\ parse_destination ("gs://" +++ bucket +++ "/") = Some (bucket, "")
  /\ parse_destination (output_gcs_destination process) = None
  /\ process_status env storage_client process
     = ([Log ERROR "Could not parse output GCS destination:"
           [output_gcs_destination process]],
        Returned tt)
  /\ walk env storage_client (process :: rest)
     = after [Log ERROR "Could not parse output GCS destination:"
                [output_gcs_destination process]]
         (walk env storage_client rest).
Proof.
  intros Hs Hb Hp Hm.
  pose proof (parse_destination_no_separator _ Hm) as Hn.
  repeat split.
  - now apply parse_destination_well_formed.
  - now apply (parse_destination_well_formed bucket "").
  - exact Hn.
  - now apply process_status_unparsed.
  - now apply walk_skips_unparsed.
Qed.

Lemma destination_split_or_skipped_witness :
  parse_destination ("gs://" +++ "out-bucket" +++ "/" +++ "run/0/")
  = Some ("out-bucket", "run/0/")
  /\ walk (Scenario.env_of
             (Scenario.operation (Ok tt) (Scenario.metadata SUCCEEDED "" []))
             [Scenario.json_blob])
       (Scenario.storage_of [Scenario.json_blob])
       [Scenario.status "out-bucket/run/0/";
        Scenario.status "gs://out-bucket/run/0/"]
     = after [Log ERROR "Could not parse output GCS destination:"
                ["out-bucket/run/0/"]]
         (walk (Scenario.env_of
                  (Scenario.operation (Ok tt)
                     (Scenario.metadata SUCCEEDED "" []))
                  [Scenario.json_blob])
            (Scenario.storage_of [Scenario.json_blob])
            [Scenario.status "gs://out-bucket/run/0/"]).
Proof.
  pose proof
    (destination_split_or_skipped
       (Scenario.env_of
          (Scenario.operation (Ok tt) (Scenario.metadata SUCCEEDED "" []))
          [Scenario.json_blob])
       (Scenario.storage_of [Scenario.json_blob])
       "out-bucket" "run/0/"
       (Scenario.status "out-bucket/run/0/")
       [Scenario.status "gs://out-bucket/run/0/"]
       eq_refl eq_refl eq_refl eq_refl) as (H1 & _ & _ & _ & H5).
  split; [exact H1 | exact H5].
Defined.

(** C9.  An output location gs://bucket with no slash after the bucket
    name holds the scheme separator, yet the pattern gives no match: the
    entry is logged as unparsable and skipped, and the walk goes on. *)
Theorem bucket_only_destination_skipped
    (env : Environment) (storage_client : StorageClient)
    (bucket : string) (process : IndividualProcessStatus)
    (rest : list IndividualProcessStatus) :
  Str.mem Str.slash bucket = false ->
  output_gcs_destination process = "gs://" +++ bucket ->
  Str.contains "://" (output_gcs_destination process) = true
  /\ parse_destination (output_gcs_destination process) = None
  /\ walk env storage_client (process :: rest)
     = after [Log ERROR "Could not parse output GCS destination:"
                [output_gcs_destination process]]
         (walk env storage_client rest).
Proof.
  intros Hs Hd.
  assert (Hn : parse_destination (output_gcs_destination process) = None)
    by (rewrite Hd; now apply parse_destination_no_slash).
  repeat split.
  - rewrite Hd. apply (StrFacts.contains_app "://" "gs" bucket).
  - exact Hn.
  - now apply walk_skips_unparsed.
Qed.

Lemma bucket_only_destination_skipped_witness :
  parse_destination "gs://bucket" = None
  /\ walk (Scenario.env_of
             (Scenario.operation (Ok tt) (Scenario.metadata SUCCEEDED "" []))
             [Scenario.json_blob])
       (Scenario.storage_of [Scenario.json_blob])
       [Scenario.status "gs://bucket"; Scenario.status "gs://out-bucket/run/0/"]
     = after [Log ERROR "Could not parse output GCS destination:"
                ["gs://bucket"]]
         (walk (Scenario.env_of
                  (Scenario.operation (Ok tt)
                     (Scenario.metadata SUCCEEDED "" []))
                  [Scenario.json_blob])
            (Scenario.storage_of [Scenario.json_blob])
            [Scenario.status "gs://out-bucket/run/0/"]).
Proof.
  pose proof
    (bucket_only_destination_skipped
       (Scenario.env_of
          (Scenario.operation (Ok tt) (Scenario.metadata SUCCEEDED "" []))
          [Scenario.json_blob])
       (Scenario.storage_of [Scenario.json_blob])
       "bucket" (Scenario.status "gs://bucket")
       [Scenario.status "gs://out-bucket/run/0/"]
       eq_refl eq_refl) as (_ & H2 & H3).
  split; [exact H2 | exact H3].
Defined.

(** C10, as it fails: a matched output location with a line feed after the
    bucket's slash is not rebuilt from its two groups. *)
Lemma matched_destination_not_rebuilt :
  parse_destination ("gs://b/p" +++ String Str.LF "q") = Some ("b", "p")
  /\ "gs://" +++ "b" +++ "/" +++ "p" <> "gs://b/p" +++ String Str.LF "q".
Proof. split; [reflexivity | discriminate]. Qed.

(** C10, amended.  For every output location the pattern matches, the
    bucket holds no slash, and gs:// ++ bucket ++ / ++ prefix is the
    location up to its end or to the first line feed after the bucket's
    slash; it is the whole location whenever the location holds no line
    feed. *)
Theorem matched_destination_rebuilt_to_line_end (s bucket prefix : string) :
  parse_destination s = Some (bucket, prefix) ->
  Str.mem Str.slash bucket = false
  /\ (exists rest,
        s = ("gs://" +++ bucket +++ "/" +++ prefix) +++ rest
        /\ (rest = "" \/ exists r, rest = String Str.LF r))
  /\ (Str.mem Str.LF s = false -> "gs://" +++ bucket +++ "/" +++ prefix = s).
Proof.
  intros H.
  apply parse_destination_inv in H as (tail & -> & -> & Hs & Hb).
  split; [exact Hs|]. split.
  - exists (Split.drop_line tail). split; [|apply SplitFacts.drop_line_head].
    rewrite !StrFacts.app_assoc.
    now rewrite <- SplitFacts.take_drop_line.
  - intros Hl.
    rewrite !StrFacts.mem_app in Hl.
    repeat (apply orb_false_iff in Hl as [_ Hl]).
    now rewrite SplitFacts.take_line_id.
Qed.

Lemma matched_destination_rebuilt_to_line_end_witness :
  Str.mem Str.slash "out-bucket" = false
  /\ "gs://" +++ "out-bucket" +++ "/" +++ "run/0/" = "gs://out-bucket/run/0/".
Proof.
  pose proof
    (matched_destination_rebuilt_to_line_end
       "gs://out-bucket/run/0/" "out-bucket" "run/0/" eq_refl)
    as (H1 & _ & H3).
  split; [exact H1 | exact (H3 eq_refl)].
Defined.

(** * The content-type filter *)

Lemma decodes_only_json_downloads_app (t1 t2 : list event) :
  decodes_only_json_downloads t1 -> decodes_only_json_downloads t2 ->
  decodes_only_json_downloads (t1 ++ t2).
Proof.
  intros H1 H2 data flag Hin.
  apply in_app_or in Hin as [Hin|Hin];
    [destruct (H1 _ _ Hin) as (Hf & b & Hb & Hj & Hd)
    |destruct (H2 _ _ Hin) as (Hf & b & Hb & Hj & Hd)];
    (split; [exact Hf|]); exists b; (split; [|now split]);
    apply in_or_app; [now left | now right].
Qed.

Lemma decodes_only_json_downloads_bind {A B} (m : M A) (f : A -> M B) :
  decodes_only_json_downloads (trace m) ->
  (forall a, decodes_only_json_downloads (trace (f a))) ->
  decodes_only_json_downloads (trace (bind m f)).
Proof.
  intros Hm Hf.
  destruct (trace_bind m f) as [-> | (a & _ & ->)]; [exact Hm|].
  now apply decodes_only_json_downloads_app.
Qed.

Lemma process_blob_trace (env : Environment) (blob : Blob) :
  Forall download_of_json (trace (process_blob env blob))
  /\ decodes_only_json_downloads (trace (process_blob env blob)).
Proof.
  unfold process_blob.
  destruct (not_json blob) eqn:J.
  - split; [repeat constructor|].
    intros data flag [H|[]]; discriminate.
  - unfold logging_info, print, call, emit, bind.
    destruct (download_as_bytes blob) as [data|e] eqn:D; simpl.
    + destruct (Document_from_json env data true) as [doc|e]; simpl.
      * split; [repeat constructor; exact J|].
        intros data' flag [H|[H|[H|[H|[H|[]]]]]]; try discriminate.
        injection H as <- <-. split; [reflexivity|].
        exists blob. split; [right; now left | now split].
      * split; [repeat constructor; exact J|].
        intros data' flag [H|[H|[H|[]]]]; try discriminate.
        injection H as <- <-. split; [reflexivity|].
        exists blob. split; [right; now left | now split].
    + split; [repeat constructor; exact J|].
      intros data' flag [H|[H|[]]]; discriminate.
Qed.

Lemma for_blobs_trace (env : Environment) (blobs : list Blob) :
  Forall download_of_json (trace (for_blobs env blobs))
  /\ decodes_only_json_downloads (trace (for_blobs env blobs)).
Proof.
  induction blobs as [|blob rest [IH1 IH2]]; simpl.
  - split; [constructor | intros ? ? []].
  - destruct (process_blob_trace env blob) as [P1 P2]. split.
    + now apply Forall_trace_bind.
    + now apply decodes_only_json_downloads_bind.
Qed.

Lemma process_status_trace (env : Environment)
    (storage_client : StorageClient) (process : IndividualProcessStatus) :
  Forall download_of_json (trace (process_status env storage_client process))
  /\ decodes_only_json_downloads
       (trace (process_status env storage_client process)).
Proof.
  unfold process_status.
  destruct (parse_destination _) as [[bucket prefix]|].
  - rewrite emit_bind. unfold after, trace at 1 3; simpl fst.
    unfold for_output_blobs.
    destruct (for_blobs_trace env
                (items (list_blobs storage_client bucket prefix)))
      as [F1 F2].
    assert (T : trace (match failure (list_blobs storage_client bucket prefix)
                      with
                      | Some e => raise (Sdk e)
                      | None => ret tt
                      end : M unit) = [])
      by now destruct (failure _).
    split.
    + constructor; [exact I|].
      apply Forall_trace_bind; [exact F1 | intros u; rewrite T; constructor].
    + apply (decodes_only_json_downloads_app
               [Call (ListBlobs bucket prefix)]).
      * intros ? ? [H|[]]; discriminate.
      * apply decodes_only_json_downloads_bind; [exact F2|].
        intros u; rewrite T; intros ? ? [].
  - split; [repeat constructor|].
    intros ? ? [H|[]]; discriminate.
Qed.

Lemma walk_trace (env : Environment) (storage_client : StorageClient)
    (statuses : list IndividualProcessStatus) :
  Forall download_of_json (trace (walk env storage_client statuses))
  /\ decodes_only_json_downloads (trace (walk env storage_client statuses)).
Proof.
  induction statuses as [|process rest [IH1 IH2]]; simpl.
  - split; [constructor | intros ? ? []].
  - destruct (process_status_trace env storage_client process) as [P1 P2].
    split.
    + now apply Forall_trace_bind.
    + now apply decodes_only_json_downloads_bind.
Qed.

(** C5.  A listed object whose content type is not exactly
    application/json is skipped with one log record: its loop body neither
    downloads nor decodes anything and does not raise.  No walk ever
    requests its bytes, and every decode made during a walk is of the bytes
    downloaded from an object of type application/json. *)
Theorem non_json_blob_never_decoded
    (env : Environment) (storage_client : StorageClient) (blob : Blob)
    (rest : list Blob) (statuses : list IndividualProcessStatus) :
  content_type blob <> Some "application/json" ->
  process_blob env blob
  = ([Log INFO ("Skipping non-supported file: " +++ name blob
                +++ " - Mimetype: " +++ py_str (content_type blob)) []],
     Returned tt)
  /\ for_blobs env (blob :: rest)
     = after (trace (process_blob env blob)) (for_blobs env rest)
  /\ ~ In (Call (DownloadAsBytes blob))
         (trace (walk env storage_client statuses))
  /\ decodes_only_json_downloads (trace (walk env storage_client statuses)).
Proof.
  intros H. apply not_json_spec in H.
  destruct (walk_trace env storage_client statuses) as [W1 W2].
  split; [|split; [|split]].
  - now apply process_blob_not_json.
  - rewrite (process_blob_not_json _ _ H). now apply for_blobs_skips_not_json.
  - intros Hin. rewrite Forall_forall in W1.
    apply W1 in Hin. simpl in Hin. congruence.
  - exact W2.
Qed.

Lemma non_json_blob_never_decoded_witness :
  process_blob
    (Scenario.env_of
       (Scenario.operation (Ok tt) (Scenario.metadata SUCCEEDED "" []))
       [Scenario.json_blob; Scenario.text_blob])
    Scenario.text_blob
  = ([Log INFO
        "Skipping non-supported file: run/0/0.pdf.txt - Mimetype: text/plain"
        []],
     Returned tt)
  /\ ~ In (Call (DownloadAsBytes Scenario.text_blob))
         (trace
            (walk
               (Scenario.env_of
                  (Scenario.operation (Ok tt)
                     (Scenario.metadata SUCCEEDED "" []))
                  [Scenario.json_blob; Scenario.text_blob])
               (Scenario.storage_of [Scenario.json_blob; Scenario.text_blob])
               [Scenario.status "gs://out-bucket/run/0/"])).
Proof.
  assert (H : content_type Scenario.text_blob <> Some "application/json")
    by discriminate.
  pose proof
    (non_json_blob_never_decoded
       (Scenario.env_of
          (Scenario.operation (Ok tt) (Scenario.metadata SUCCEEDED "" []))
          [Scenario.json_blob; Scenario.text_blob])
       (Scenario.storage_of [Scenario.json_blob; Scenario.text_blob])
       Scenario.text_blob []
       [Scenario.status "gs://out-bucket/run/0/"] H) as (H1 & _ & H3 & _).
  split; [exact H1 | exact H3].
Defined.

(** * The order of the walk *)

Lemma lines_of_app (p q : list (string * string)) :
  lines_of (p ++ q) = lines_of p ++ lines_of q.
Proof. apply flat_map_app. Qed.

Lemma process_blob_json (env : Environment) (blob : Blob)
    (document : Document) :
  not_json blob = false -> blob_document env blob = Ok document ->
  ending (process_blob env blob) = Returned tt
  /\ printed (trace (process_blob env blob)) = [text_header; text document]
  /\ downloaded (trace (process_blob env blob)) = [blob].
Proof.
  unfold process_blob, blob_document. intros -> H.
  destruct (download_as_bytes blob) as [data|e]; [|discriminate].
  unfold logging_info, print, call, emit, bind. now rewrite H.
Qed.

Lemma for_blobs_succeeds (env : Environment) (blobs : list Blob) :
  Forall (blob_readable env) blobs ->
  ending (for_blobs env blobs) = Returned tt
  /\ printed (trace (for_blobs env blobs))
     = lines_of (flat_map (source_and_text env) (json_blobs blobs))
  /\ downloaded (trace (for_blobs env blobs)) = json_blobs blobs
  /\ map fst (flat_map (source_and_text env) (json_blobs blobs))
     = map name (json_blobs blobs).
Proof.
  induction 1 as [|blob rest Hb _ (IH1 & IH2 & IH3 & IH4)]; simpl.
  - now repeat split.
  - unfold blob_readable in Hb.
    destruct (not_json blob) eqn:J; simpl.
    + rewrite (bind_returned _ _ tt)
        by now rewrite process_blob_not_json.
      rewrite process_blob_not_json by exact J.
      unfold after, trace, ending; simpl.
      now repeat split.
    + destruct (Hb eq_refl) as [document Hd].
      destruct (process_blob_json env blob document J Hd) as (P1 & P2 & P3).
      rewrite (bind_returned _ _ tt) by exact P1.
      rewrite !trace_after, ending_after.
      rewrite printed_app, downloaded_app, P2, P3, IH2, IH3.
      assert (S : source_and_text env blob = [(name blob, text document)])
        by (unfold source_and_text; now rewrite Hd).
      rewrite S. simpl. rewrite IH4. now repeat split.
Qed.

Lemma process_status_succeeds (env : Environment)
    (storage_client : StorageClient) (process : IndividualProcessStatus) :
  listing_succeeds env storage_client process ->
  ending (process_status env storage_client process) = Returned tt
  /\ printed (trace (process_status env storage_client process))
     = lines_of (flat_map (source_and_text env)
                   (json_blobs (listed storage_client process)))
  /\ downloaded (trace (process_status env storage_client process))
     = json_blobs (listed storage_client process)
  /\ map fst (flat_map (source_and_text env)
                (json_blobs (listed storage_client process)))
     = map name (json_blobs (listed storage_client process)).
Proof.
  unfold listing_succeeds, process_status, listed.
  destruct (parse_destination _) as [[bucket prefix]|]; [|now repeat split].
  intros [Hf Hb].
  destruct (for_blobs_succeeds env _ Hb) as (F1 & F2 & F3 & F4).
  rewrite emit_bind. unfold for_output_blobs.
  rewrite (bind_returned _ _ tt) by exact F1.
  rewrite Hf.
  unfold after, trace, ending; simpl.
  rewrite app_nil_r.
  now repeat split.
Qed.

Lemma walk_succeeds_run (env : Environment) (storage_client : StorageClient)
    (statuses : list IndividualProcessStatus) :
  walk_succeeds env storage_client statuses ->
  ending (walk env storage_client statuses) = Returned tt
  /\ printed (trace (walk env storage_client statuses))
     = lines_of (emitted_pairs env storage_client statuses)
  /\ downloaded (trace (walk env storage_client statuses))
     = visited storage_client statuses
  /\ map fst (emitted_pairs env storage_client statuses)
     = map name (visited storage_client statuses).
Proof.
  induction 1 as [|process rest Hp _ (IH1 & IH2 & IH3 & IH4)]; simpl.
  - now repeat split.
  - destruct (process_status_succeeds env storage_client process Hp)
      as (P1 & P2 & P3 & P4).
    rewrite (bind_returned _ _ tt) by exact P1.
    rewrite !trace_after, ending_after.
    rewrite printed_app, downloaded_app, P2, P3, IH2, IH3.
    rewrite lines_of_app, !map_app, P4, IH4.
    now repeat split.
Qed.

Lemma prints_prefix_of_bind (m1 m2 : M unit) (l1 l2 : list string) :
  prints_prefix_of m1 l1 -> prints_prefix_of m2 l2 ->
  prints_prefix_of (m1 ;; m2) (l1 ++ l2).
Proof.
  intros [R1 [r1 P1]] [R2 [r2 P2]].
  destruct m1 as [tr [[]|e]].
  - rewrite (bind_returned _ _ tt) by reflexivity.
    unfold prints_prefix_of.
    rewrite ending_after, trace_after, printed_app.
    change (trace (tr, Returned tt)) with tr.
    rewrite <- (R1 eq_refl). split.
    + intros H. now rewrite (R2 H).
    + exists r2. now rewrite P2, app_assoc.
  - split; [discriminate|].
    exists (r1 ++ l2). simpl in *. now rewrite P1, app_assoc.
Qed.

Lemma prints_prefix_of_silent (m : M unit) :
  printed (trace m) = [] -> prints_prefix_of m [].
Proof. intros H. split; [now intros _ | exists []; now rewrite H]. Qed.

Lemma process_blob_prints (env : Environment) (blob : Blob) :
  prints_prefix_of (process_blob env blob)
    (lines_of (flat_map (source_and_text env) (json_blobs [blob]))).
Proof.
  unfold process_blob, json_blobs, source_and_text, blob_document; simpl.
  destruct (not_json blob); simpl.
  - now apply prints_prefix_of_silent.
  - unfold logging_info, print, call, emit, bind.
    destruct (download_as_bytes blob) as [data|e]; simpl.
    + destruct (Document_from_json env data true) as [doc|e]; simpl.
      * split; [reflexivity | now exists []].
      * now apply prints_prefix_of_silent.
    + now apply prints_prefix_of_silent.
Qed.

Lemma for_blobs_prints (env : Environment) (blobs : list Blob) :
  prints_prefix_of (for_blobs env blobs)
    (lines_of (flat_map (source_and_text env) (json_blobs blobs))).
Proof.
  induction blobs as [|blob rest IH].
  - now apply prints_prefix_of_silent.
  - change (blob :: rest) with ([blob] ++ rest).
    unfold json_blobs. rewrite filter_app, flat_map_app, lines_of_app.
    apply (prints_prefix_of_bind (process_blob env blob)
             (for_blobs env rest));
      [apply process_blob_prints | exact IH].
Qed.

Lemma process_status_prints (env : Environment)
    (storage_client : StorageClient) (process : IndividualProcessStatus) :
  prints_prefix_of (process_status env storage_client process)
    (lines_of (flat_map (source_and_text env)
                 (json_blobs (listed storage_client process)))).
Proof.
  unfold process_status, listed.
  destruct (parse_destination _) as [[bucket prefix]|].
  - apply (prints_prefix_of_bind _ _ []);
      [now apply prints_prefix_of_silent|].
    unfold for_output_blobs.
    rewrite <- (app_nil_r (lines_of _)).
    apply prints_prefix_of_bind; [apply for_blobs_prints|].
    apply prints_prefix_of_silent. now destruct (failure _).
  - now apply prints_prefix_of_silent.
Qed.

Lemma walk_prints (env : Environment) (storage_client : StorageClient)
    (statuses : list IndividualProcessStatus) :
  prints_prefix_of (walk env storage_client statuses)
    (lines_of (emitted_pairs env storage_client statuses)).
Proof.
  induction statuses as [|process rest IH].
  - now apply prints_prefix_of_silent.
  - simpl. rewrite lines_of_app.
    apply prints_prefix_of_bind; [apply process_status_prints | exact IH].
Qed.

(** C8.  What the walk emits is, entry by entry in the order of the job
    metadata and object by object in the order of the storage listing, the
    JSON-typed objects.  In every walk standard output is an initial
    segment of the texts of these objects in that order (each after the
    fixed header line): one pass, nothing reordered.  When no SDK call of
    the walk raises, the walk returns having downloaded each such object
    exactly once in that order, its name paired with its decoded text, and
    standard output is the texts of all these pairs. *)
Theorem walk_emits_in_listing_order
    (env : Environment) (storage_client : StorageClient)
    (statuses : list IndividualProcessStatus) :
  (exists rest,
     lines_of (emitted_pairs env storage_client statuses)
     = printed (trace (walk env storage_client statuses)) ++ rest)
  /\ (walk_succeeds env storage_client statuses ->
      ending (walk env storage_client statuses) = Returned tt
      /\ downloaded (trace (walk env storage_client statuses))
         = visited storage_client statuses
      /\ map name (downloaded (trace (walk env storage_client statuses)))
         = map fst (emitted_pairs env storage_client statuses)
      /\ printed (trace (walk env storage_client statuses))
         = lines_of (emitted_pairs env storage_client statuses)).
Proof.
  split; [apply walk_prints|].
  intros H.
  destruct (walk_succeeds_run env storage_client statuses H)
    as (W1 & W2 & W3 & W4).
  rewrite W3. now repeat split.
Qed.

Lemma walk_emits_in_listing_order_witness :
  printed
    (trace
       (walk
          (Scenario.env_of
             (Scenario.operation (Ok tt) (Scenario.metadata SUCCEEDED "" []))
             [Scenario.json_blob; Scenario.text_blob])
          (Scenario.storage_of [Scenario.json_blob; Scenario.text_blob])
          [Scenario.status "gs://out-bucket/run/0/";
           Scenario.status "gs://bucket";
           Scenario.status "gs://out-bucket/run/0/"]))
  = [text_header; "Invoice 42"; text_header; "Invoice 42"].
Proof.
  assert (R : Forall
                (blob_readable
                   (Scenario.env_of
                      (Scenario.operation (Ok tt)
                         (Scenario.metadata SUCCEEDED "" []))
                      [Scenario.json_blob; Scenario.text_blob]))
                [Scenario.json_blob; Scenario.text_blob]).
  { constructor; [|constructor; [|constructor]].
    - intros _. exists {| text := "Invoice 42" |}. reflexivity.
    - intros H. discriminate H. }
  assert (H : walk_succeeds
                (Scenario.env_of
                   (Scenario.operation (Ok tt)
                      (Scenario.metadata SUCCEEDED "" []))
                   [Scenario.json_blob; Scenario.text_blob])
                (Scenario.storage_of [Scenario.json_blob; Scenario.text_blob])
                [Scenario.status "gs://out-bucket/run/0/";
                 Scenario.status "gs://bucket";
                 Scenario.status "gs://out-bucket/run/0/"]).
  { constructor; [|constructor; [|constructor; [|constructor]]].
    - split; [reflexivity | exact R].
    - exact I.
    - split; [reflexivity | exact R]. }
  exact (proj2 (proj2 (proj2
           (proj2 (walk_emits_in_listing_order _ _ _) H)))).
Defined.

(** * The wait and the terminal-state check *)

Section Run.

Variable env : Environment.
Variables project_id location processor_id : option string.
Variables gcs_output_uri gcs_input_prefix field_mask : option string.
Variable timeout : Z.
Variable operation : Operation.

Let run : M unit :=
  batch_process_documents env project_id location processor_id
    gcs_output_uri gcs_input_prefix field_mask timeout.
Let metadata : BatchProcessMetadata :=
  BatchProcessMetadata_of (operation_metadata operation).
Let submission : list event :=
  submit_events project_id location processor_id gcs_output_uri
    gcs_input_prefix field_mask.

Hypothesis Hsubmitted :
  submitted env project_id location processor_id gcs_output_uri
    gcs_input_prefix field_mask operation.

Lemma run_failed_state :
  wait_passes operation timeout -> state metadata <> SUCCEEDED ->
  run = (submission ++ trace (wait operation timeout),
         Raised (ValueError
                   ("Batch Process Failed: " +++ state_message metadata))).
Proof.
  intros Hw Hs. unfold run.
  rewrite (run_after_wait _ _ _ _ _ _ _ _ _ Hsubmitted Hw).
  rewrite (check_and_walk_failed env operation Hs).
  unfold after, raise, trace, ending; simpl. now rewrite app_nil_r.
Qed.

Lemma run_succeeded_state :
  wait_passes operation timeout -> state metadata = SUCCEEDED ->
  run = after (submission ++ trace (wait operation timeout))
          (open_storage_and_walk env metadata).
Proof.
  intros Hw Hs. unfold run.
  rewrite (run_after_wait _ _ _ _ _ _ _ _ _ Hsubmitted Hw).
  now rewrite (check_and_walk_succeeded env operation Hs).
Qed.

Lemma run_uncaught_wait (e : sdk_exception) :
  operation_result operation timeout = Err e -> catches e = false ->
  run = (submission ++ waiting_events operation timeout, Raised (Sdk e)).
Proof.
  intros He Hc. unfold run.
  rewrite (run_after_submit _ _ _ _ _ _ _ _ _ Hsubmitted).
  rewrite (bind_raised _ _ (Sdk e)) by now rewrite (wait_propagates _ _ e).
  now rewrite (wait_propagates _ _ e).
Qed.

Lemma run_never_value_error_when_succeeded :
  state metadata = SUCCEEDED ->
  forall msg, ending run <> Raised (ValueError msg).
Proof.
  intros Hs msg.
  assert (P : wait_passes operation timeout ->
              ending run <> Raised (ValueError msg)).
  { intros Hw. rewrite (run_succeeded_state Hw Hs), ending_after. intros H.
    now destruct (sdk_only_open_storage_and_walk env metadata _ H). }
  destruct (operation_result operation timeout) as [[]|e] eqn:E.
  - apply P. unfold wait_passes. now rewrite E.
  - destruct (catches e) eqn:C.
    + apply P. unfold wait_passes. now rewrite E.
    + rewrite (run_uncaught_wait e E C). discriminate.
Qed.

Lemma downloaded_wait :
  wait_passes operation timeout ->
  downloaded (trace (wait operation timeout)) = [].
Proof.
  unfold wait_passes.
  destruct (operation_result operation timeout) as [[]|e] eqn:E; intros H.
  - now rewrite wait_returns.
  - now rewrite (wait_catches _ _ e).
Qed.

Lemma printed_wait :
  wait_passes operation timeout ->
  printed (trace (wait operation timeout)) = [].
Proof.
  unfold wait_passes.
  destruct (operation_result operation timeout) as [[]|e] eqn:E; intros H.
  - now rewrite wait_returns.
  - now rewrite (wait_catches _ _ e).
Qed.

Lemma run_walk_succeeds (storage_client : StorageClient) :
  wait_passes operation timeout -> state metadata = SUCCEEDED ->
  new_storage_Client env = Ok storage_client ->
  walk_succeeds env storage_client (individual_process_statuses metadata) ->
  ending run = Returned tt
  /\ downloaded (trace run)
     = visited storage_client (individual_process_statuses metadata)
  /\ printed (trace run)
     = lines_of (emitted_pairs env storage_client
                   (individual_process_statuses metadata)).
Proof.
  intros Hw Hs Hc Hk.
  destruct (walk_succeeds_run env storage_client _ Hk) as (W1 & W2 & W3 & _).
  rewrite (run_succeeded_state Hw Hs).
  unfold open_storage_and_walk, logging_info.
  rewrite (bind_returned _ _ storage_client) by (unfold call; now rewrite Hc).
  rewrite emit_bind, !after_after.
  rewrite ending_after, trace_after.
  rewrite !printed_app, !downloaded_app, W1, W2, W3.
  rewrite (printed_wait Hw), (downloaded_wait Hw).
  now repeat split.
Qed.

End Run.

(** * The claims about the whole run *)

(** C1, as it fails: the wait raises an exception that line 94 does not
    name, the job's metadata says FAILED with the message quota exceeded,
    and the error that ends the run does not carry that message. *)
Lemma uncaught_wait_error_hides_state_message :
  state (Scenario.metadata FAILED "quota exceeded" ["gs://out-bucket/run/0/"])
  <> SUCCEEDED
  /\ ending
       (Scenario.run
          (Scenario.operation (Err Scenario.invalid_argument)
             (Scenario.metadata FAILED "quota exceeded"
                ["gs://out-bucket/run/0/"]))
          [Scenario.json_blob])
     = Raised (Sdk Scenario.invalid_argument)
  /\ Str.contains "quota exceeded"
       (exn_message (Sdk Scenario.invalid_argument)) = false.
Proof. split; [discriminate | split; reflexivity]. Qed.

(** C1, amended.  When the wait returns, or raises a RetryError or an
    InternalServerError (which line 94 catches), and the job's terminal
    metadata state is anything other than succeeded, the run aborts right
    after the wait by raising a ValueError whose message is Batch Process
    Failed: followed by the service-reported state message, verbatim.  Any
    other exception of the wait propagates as it is, before the metadata is
    read. *)
Theorem failed_job_raises_state_message
    (env : Environment)
    (project_id location processor_id
       gcs_output_uri gcs_input_prefix field_mask : option string)
    (timeout : Z) (operation : Operation) :
  let metadata := BatchProcessMetadata_of (operation_metadata operation) in
  let run := batch_process_documents env project_id location processor_id
               gcs_output_uri gcs_input_prefix field_mask timeout in
  let submission := submit_events project_id location processor_id
                      gcs_output_uri gcs_input_prefix field_mask in
  submitted env project_id location processor_id gcs_output_uri
    gcs_input_prefix field_mask operation ->
  state metadata <> SUCCEEDED ->
  (wait_passes operation timeout ->
   run = (submission ++ trace (wait operation timeout),
          Raised (ValueError
                    ("Batch Process Failed: " +++ state_message metadata))))
  /\ Str.contains (state_message metadata)
       ("Batch Process Failed: " +++ state_message metadata) = true
  /\ (forall e,
        operation_result operation timeout = Err e -> catches e = false ->
        run = (submission ++ waiting_events operation timeout,
               Raised (Sdk e))).
Proof.
  intros metadata run submission Hsub Hs. split; [|split].
  - intros Hw. now apply run_failed_state.
  - pose proof (StrFacts.contains_app (state_message metadata)
                  "Batch Process Failed: " "") as C.
    now rewrite StrFacts.app_nil_r in C.
  - intros e He Hc. now apply run_uncaught_wait.
Qed.

Lemma failed_job_raises_state_message_witness :
  ending
    (Scenario.run
       (Scenario.operation (Err Scenario.deadline_exceeded)
          (Scenario.metadata FAILED "quota exceeded"
             ["gs://out-bucket/run/0/"]))
       [Scenario.json_blob])
  = Raised (ValueError "Batch Process Failed: quota exceeded").
Proof.
  assert (Hsub : submitted
                   (Scenario.env_of
                      (Scenario.operation (Err Scenario.deadline_exceeded)
                         (Scenario.metadata FAILED "quota exceeded"
                            ["gs://out-bucket/run/0/"]))
                      [Scenario.json_blob])
                   (Some "p") (Some "us") (Some "ac27785bf4bee278")
                   (Some "gs://out-bucket/run/") (Some "gs://in-bucket/forms/")
                   None
                   (Scenario.operation (Err Scenario.deadline_exceeded)
                      (Scenario.metadata FAILED "quota exceeded"
                         ["gs://out-bucket/run/0/"]))).
  { eexists. split; reflexivity. }
  assert (Hs : state
                 (BatchProcessMetadata_of
                    (operation_metadata
                       (Scenario.operation (Err Scenario.deadline_exceeded)
                          (Scenario.metadata FAILED "quota exceeded"
                             ["gs://out-bucket/run/0/"]))))
               <> SUCCEEDED) by discriminate.
  assert (Hw : wait_passes
                 (Scenario.operation (Err Scenario.deadline_exceeded)
                    (Scenario.metadata FAILED "quota exceeded"
                       ["gs://out-bucket/run/0/"]))
                 default_timeout) by reflexivity.
  pose proof
    (failed_job_raises_state_message _ _ _ _ _ _ _ default_timeout _ Hsub Hs)
    as (H1 & _ & _).
  exact (f_equal snd (H1 Hw)).
Defined.

Lemma scenario_submitted (op : Operation) (blobs : list Blob) :
  submitted (Scenario.env_of op blobs)
    (Some "p") (Some "us") (Some "ac27785bf4bee278")
    (Some "gs://out-bucket/run/") (Some "gs://in-bucket/forms/") None op.
Proof. eexists. split; reflexivity. Defined.

(** C3, as it fails: the job succeeded, the first listed object has type
    application/json and bytes the decoder rejects; the decoder's exception
    ends the run, and the object listed after it is never fetched. *)
Lemma decode_failure_aborts_succeeded_run :
  state (Scenario.metadata SUCCEEDED "" ["gs://out-bucket/run/0/"]) = SUCCEEDED
  /\ ending
       (Scenario.run
          (Scenario.operation (Ok tt)
             (Scenario.metadata SUCCEEDED "" ["gs://out-bucket/run/0/"]))
          [Scenario.broken_blob; Scenario.json_blob])
     = Raised (Sdk Scenario.parse_error)
  /\ downloaded
       (trace
          (Scenario.run
             (Scenario.operation (Ok tt)
                (Scenario.metadata SUCCEEDED "" ["gs://out-bucket/run/0/"]))
             [Scenario.broken_blob; Scenario.json_blob]))
     = [Scenario.broken_blob]
  /\ visited (Scenario.storage_of [Scenario.broken_blob; Scenario.json_blob])
       [Scenario.status "gs://out-bucket/run/0/"]
     = [Scenario.broken_blob; Scenario.json_blob].
Proof. repeat split. Qed.

(** The end-to-end scenario of the specification: only 0.json is fetched
    and decoded, its text is printed, and 0.pdf.txt is skipped with a log
    record. *)
Example end_to_end_scenario :
  Scenario.run
    (Scenario.operation (Ok tt)
       (Scenario.metadata SUCCEEDED "" ["gs://out-bucket/run/0/"]))
    [Scenario.json_blob; Scenario.text_blob]
  = ([Call (CreateDocumentClient "us-documentai.googleapis.com");
      Call (BatchProcess
              {| request_name :=
                   "projects/p/locations/us/processors/ac27785bf4bee278";
                 gcs_uri_prefix := Some "gs://in-bucket/forms/";
                 gcs_uri := Some "gs://out-bucket/run/";
                 output_field_mask := None |});
      Log INFO
        "Waiting for operation projects/p/locations/us/operations/1 to complete..."
        [];
      Call (OperationResult 400);
      Call CreateStorageClient;
      Log INFO "Output files:" [];
      Call (ListBlobs "out-bucket" "run/0/");
      Log INFO "Fetching run/0/0.json" [];
      Call (DownloadAsBytes Scenario.json_blob);
      Call (FromJson Scenario.braces true);
      Print "The document contains the following text:";
      Print "Invoice 42";
      Log INFO
        "Skipping non-supported file: run/0/0.pdf.txt - Mimetype: text/plain"
        []],
     Returned tt).
Proof. reflexivity. Qed.

(** * Further properties of the output-location pattern *)

Lemma split_bucket_none_iff (t : string) :
  Split.split_bucket t = None
  <-> Str.mem Str.slash (Split.take_line t) = false.
Proof.
  induction t as [|c t IH]; simpl; [now split|].
  destruct (Ascii.eqb_spec c Str.slash) as [->|Hc].
  - simpl. split; discriminate.
  - destruct (Ascii.eqb c Str.LF); simpl; [now split|].
    apply Ascii.eqb_neq in Hc. rewrite Hc. simpl.
    destruct (Split.split_bucket t) as [[b r]|].
    + split; [discriminate|]. intros H. now apply IH in H.
    + split; [intros _; now apply IH | reflexivity].
Qed.

(** X1.  The pattern of line 111 matches a string, with groups (bucket,
    prefix), exactly when the string is gs:// followed by the bucket, a
    slash and some tail, where the bucket holds neither a slash nor a line
    feed and the prefix is the first line of the tail. *)
Theorem destination_match_characterised (s bucket prefix : string) :
  parse_destination s = Some (bucket, prefix)
  <-> exists tail,
        s = "gs://" +++ bucket +++ "/" +++ tail
        /\ Str.mem Str.slash bucket = false
        /\ Str.mem Str.LF bucket = false
        /\ prefix = Split.take_line tail.
Proof.
  split.
  - intros H.
    destruct (parse_destination_inv _ _ _ H) as (tail & Hs & Hp & H1 & H2).
    exists tail. now repeat split.
  - intros (tail & -> & H1 & H2 & ->).
    rewrite SplitFacts.parse_destination_split.
    unfold Split.split_destination.
    rewrite StrFacts.strip_prefix_app.
    now rewrite SplitFacts.split_bucket_app.
Qed.

(** X2.  An output location gives no match, and so is skipped, exactly
    when it does not begin with gs:// (the match is anchored at the start
    and is case-sensitive) or when what follows gs:// has no slash on its
    first line (a line feed before the first slash breaks the bucket). *)
Theorem destination_skipped_characterised (s : string) :
  parse_destination s = None
  <-> Str.startswith "gs://" s = false
      \/ exists t, s = "gs://" +++ t
                   /\ Str.mem Str.slash (Split.take_line t) = false.
Proof.
  rewrite SplitFacts.parse_destination_split.
  unfold Split.split_destination, Str.startswith.
  destruct (Str.strip_prefix "gs://" s) as [t|] eqn:E.
  - pose proof (StrFacts.strip_prefix_inv _ _ _ E) as Hs.
    split.
    + intros H. right. exists t. split; [exact Hs|].
      apply split_bucket_none_iff.
      now destruct (Split.split_bucket t) as [[b r]|].
    + intros [H|(t' & Ht & Hm)]; [discriminate|].
      rewrite Ht, StrFacts.strip_prefix_app in E. injection E as <-.
      apply split_bucket_none_iff in Hm. now rewrite Hm.
  - split; [now left | reflexivity].
Qed.

(** X3.  An empty bucket name is not rejected: for a location gs:///tail
    the pattern matches with an empty bucket, and the loop body asks the
    storage client to list the empty bucket under the first line of the
    tail. *)
Theorem empty_bucket_is_listed
    (env : Environment) (storage_client : StorageClient)
    (process : IndividualProcessStatus) (tail : string) :
  output_gcs_destination process = "gs:///" +++ tail ->
  parse_destination (output_gcs_destination process)
  = Some ("", Split.take_line tail)
  /\ process_status env storage_client process
     = after [Call (ListBlobs "" (Split.take_line tail))]
         (for_output_blobs env
            (list_blobs storage_client "" (Split.take_line tail))).
Proof.
  intros Hd.
  assert (P : parse_destination (output_gcs_destination process)
              = Some ("", Split.take_line tail)).
  { rewrite Hd. apply destination_match_characterised.
    exists tail. now repeat split. }
  split; [exact P|].
  unfold process_status. rewrite P. apply emit_bind.
Qed.

Lemma empty_bucket_is_listed_witness :
  parse_destination "gs:///run/0/" = Some ("", "run/0/").
Proof.
  exact (proj1
           (empty_bucket_is_listed
              (Scenario.env_of
                 (Scenario.operation (Ok tt)
                    (Scenario.metadata SUCCEEDED "" []))
                 [])
              (Scenario.storage_of [])
              (Scenario.status "gs:///run/0/") "run/0/" eq_refl)).
Defined.

(** * When the walk returns *)

Lemma bind_returned_inv {A B} (m : M A) (f : A -> M B) (b : B) :
  ending (bind m f) = Returned b ->
  exists a, ending m = Returned a /\ ending (f a) = Returned b.
Proof.
  destruct m as [tr [a|e]]; [|discriminate].
  rewrite (bind_returned _ _ a) by reflexivity. rewrite ending_after.
  intros H. now exists a.
Qed.

Lemma process_blob_returned (env : Environment) (blob : Blob) :
  ending (process_blob env blob) = Returned tt -> blob_readable env blob.
Proof.
  unfold process_blob, blob_readable, blob_document. intros H J.
  rewrite J in H. unfold logging_info, print, call, emit, bind in H.
  destruct (download_as_bytes blob) as [data|e]; [|discriminate].
  simpl in H.
  destruct (Document_from_json env data true) as [doc|e]; [|discriminate].
  now exists doc.
Qed.

Lemma for_blobs_returned (env : Environment) (blobs : list Blob) :
  ending (for_blobs env blobs) = Returned tt ->
  Forall (blob_readable env) blobs.
Proof.
  induction blobs as [|blob rest IH]; simpl; [constructor|].
  intros H. apply bind_returned_inv in H as ([] & H1 & H2).
  constructor; [now apply process_blob_returned | now apply IH].
Qed.

Lemma process_status_returned (env : Environment)
    (storage_client : StorageClient) (process : IndividualProcessStatus) :
  ending (process_status env storage_client process) = Returned tt ->
  listing_succeeds env storage_client process.
Proof.
  unfold process_status, listing_succeeds.
  destruct (parse_destination _) as [[bucket prefix]|]; [|easy].
  intros H. apply bind_returned_inv in H as ([] & _ & H).
  unfold for_output_blobs in H.
  apply bind_returned_inv in H as ([] & H1 & H2).
  split; [|now apply for_blobs_returned].
  now destruct (failure _).
Qed.

(** X4.  The walk returns exactly when no SDK call in it raises: every
    listing of a parsable entry ends normally and every JSON-typed object
    downloads and decodes.  Unparsable entries and non-JSON objects never
    stand in the way. *)
Theorem walk_returns_iff_no_sdk_failure
    (env : Environment) (storage_client : StorageClient)
    (statuses : list IndividualProcessStatus) :
  ending (walk env storage_client statuses) = Returned tt
  <-> walk_succeeds env storage_client statuses.
Proof.
  split; [|intros H; now apply walk_succeeds_run].
  induction statuses as [|process rest IH]; simpl; [constructor|].
  intros H. apply bind_returned_inv in H as ([] & H1 & H2).
  constructor; [now apply process_status_returned | now apply IH].
Qed.

(** * What the walk asks of the storage client and what it logs *)

Lemma observe_app {X} (f : event -> list X) (t1 t2 : list event) :
  observe f (t1 ++ t2) = observe f t1 ++ observe f t2.
Proof. apply flat_map_app. Qed.

Lemma observe_none {X} (f : event -> list X) (P : event -> Prop)
    (tr : list event) :
  (forall ev, P ev -> f ev = []) -> Forall P tr -> observe f tr = [].
Proof.
  intros Hf. induction 1 as [|ev tr Hev _ IH]; [reflexivity|].
  simpl. now rewrite (Hf _ Hev), IH.
Qed.

Lemma observes_prefix_of_bind {X} (f : event -> list X) (m1 m2 : M unit)
    (l1 l2 : list X) :
  observes_prefix_of f m1 l1 -> observes_prefix_of f m2 l2 ->
  observes_prefix_of f (m1 ;; m2) (l1 ++ l2).
Proof.
  intros [R1 [r1 P1]] [R2 [r2 P2]].
  destruct m1 as [tr [[]|e]].
  - rewrite (bind_returned _ _ tt) by reflexivity.
    unfold observes_prefix_of.
    rewrite ending_after, trace_after, observe_app.
    change (trace (tr, Returned tt)) with tr.
    rewrite <- (R1 eq_refl). split.
    + intros H. now rewrite (R2 H).
    + exists r2. now rewrite P2, app_assoc.
  - split; [discriminate|].
    exists (r1 ++ l2). simpl in *. now rewrite P1, app_assoc.
Qed.

Lemma observes_prefix_of_silent {X} (f : event -> list X) (m : M unit) :
  observe f (trace m) = [] -> observes_prefix_of f m [].
Proof. intros H. split; [now intros _ | exists []; now rewrite H]. Qed.

Lemma process_blob_events (env : Environment) (blob : Blob) :
  Forall blob_event (trace (process_blob env blob)).
Proof.
  unfold process_blob, logging_info, print.
  destruct (not_json blob); [repeat constructor|].
  repeat (apply Forall_trace_bind; [repeat constructor | intros]).
  repeat constructor.
Qed.

Lemma for_blobs_events (env : Environment) (blobs : list Blob) :
  Forall blob_event (trace (for_blobs env blobs)).
Proof.
  induction blobs as [|blob rest IH]; simpl; [constructor|].
  apply Forall_trace_bind; [apply process_blob_events | intros; exact IH].
Qed.

Lemma for_output_blobs_events (env : Environment)
    (output_blobs : BlobIterator) :
  Forall blob_event (trace (for_output_blobs env output_blobs)).
Proof.
  unfold for_output_blobs.
  apply Forall_trace_bind.
  - apply for_blobs_events.
  - intros _. destruct (failure output_blobs); constructor.
Qed.

Lemma process_status_events (env : Environment)
    (storage_client : StorageClient) (process : IndividualProcessStatus) :
  Forall walk_event (trace (process_status env storage_client process)).
Proof.
  unfold process_status.
  destruct (parse_destination _) as [[bucket prefix]|];
    [|repeat constructor].
  apply Forall_trace_bind; [repeat constructor | intros _].
  eapply Forall_impl; [|apply for_output_blobs_events].
  intros [[] ? ?| |[]]; simpl; tauto.
Qed.

Lemma walk_events (env : Environment) (storage_client : StorageClient)
    (statuses : list IndividualProcessStatus) :
  Forall walk_event (trace (walk env storage_client statuses)).
Proof.
  induction statuses as [|process rest IH]; simpl; [constructor|].
  apply Forall_trace_bind; [apply process_status_events | intros; exact IH].
Qed.

Lemma walk_observes {X} (f : event -> list X)
    (g : IndividualProcessStatus -> list X)
    (env : Environment) (storage_client : StorageClient)
    (statuses : list IndividualProcessStatus) :
  (forall process,
     observes_prefix_of f (process_status env storage_client process)
       (g process)) ->
  observes_prefix_of f (walk env storage_client statuses)
    (flat_map g statuses).
Proof.
  intros Hp. induction statuses as [|process rest IH]; simpl.
  - now apply observes_prefix_of_silent.
  - apply observes_prefix_of_bind; [apply Hp | exact IH].
Qed.

(** X5.  The walk asks the storage client for one listing per parsable
    entry, with the bucket and prefix the pattern gave, in the order of the
    metadata and without merging repeated entries: in every walk the
    listings requested are an initial segment of these, and all of them
    when the walk returns. *)
Theorem walk_lists_each_parsed_destination
    (env : Environment) (storage_client : StorageClient)
    (statuses : list IndividualProcessStatus) :
  (exists rest,
     parsed_destinations statuses
     = observe listing_of (trace (walk env storage_client statuses)) ++ rest)
  /\ (ending (walk env storage_client statuses) = Returned tt ->
      observe listing_of (trace (walk env storage_client statuses))
      = parsed_destinations statuses).
Proof.
  assert (H : observes_prefix_of listing_of
                (walk env storage_client statuses)
                (parsed_destinations statuses)).
  { apply walk_observes. intros process. unfold process_status.
    destruct (parse_destination _) as [[bucket prefix]|].
    - rewrite <- (app_nil_r [(bucket, prefix)]).
      apply observes_prefix_of_bind.
      + split; [reflexivity | now exists []].
      + apply observes_prefix_of_silent.
        apply (observe_none _ blob_event);
          [|apply for_output_blobs_events].
        intros [[] ? ?| |[]]; simpl; tauto.
    - now apply observes_prefix_of_silent. }
  destruct H as [H1 H2]. now split.
Qed.

(** X6.  The walk logs at error level exactly the unparsable entries: in
    every walk the error records are, in the order of the metadata, the
    record Could not parse output GCS destination: with the entry's
    location as its argument, for an initial segment of the unparsable
    entries, and for all of them when the walk returns.  Nothing else in
    the walk is logged as an error. *)
Theorem walk_error_records_are_unparsed_entries
    (env : Environment) (storage_client : StorageClient)
    (statuses : list IndividualProcessStatus) :
  (exists rest,
     unparsed_records statuses
     = observe error_of (trace (walk env storage_client statuses)) ++ rest)
  /\ (ending (walk env storage_client statuses) = Returned tt ->
      observe error_of (trace (walk env storage_client statuses))
      = unparsed_records statuses).
Proof.
  assert (H : observes_prefix_of error_of
                (walk env storage_client statuses)
                (unparsed_records statuses)).
  { apply walk_observes. intros process. unfold process_status.
    destruct (parse_destination _) as [[bucket prefix]|].
    - apply (observes_prefix_of_bind error_of _ _ [] []).
      + now apply observes_prefix_of_silent.
      + apply observes_prefix_of_silent.
        apply (observe_none _ blob_event);
          [|apply for_output_blobs_events].
        intros [[] ? ?| |[]]; simpl; tauto.
    - split; [reflexivity | now exists []]. }
  destruct H as [H1 H2]. now split.
Qed.

Lemma walk_lists_each_parsed_destination_witness :
  observe listing_of
    (trace
       (walk
          (Scenario.env_of
             (Scenario.operation (Ok tt) (Scenario.metadata SUCCEEDED "" []))
             [Scenario.json_blob; Scenario.text_blob])
          (Scenario.storage_of [Scenario.json_blob; Scenario.text_blob])
          [Scenario.status "gs://out-bucket/run/0/";
           Scenario.status "gs://bucket";
           Scenario.status "gs://out-bucket/run/0/"]))
  = [("out-bucket", "run/0/"); ("out-bucket", "run/0/")].
Proof.
  exact (proj2
           (walk_lists_each_parsed_destination
              (Scenario.env_of
                 (Scenario.operation (Ok tt)
                    (Scenario.metadata SUCCEEDED "" []))
                 [Scenario.json_blob; Scenario.text_blob])
              (Scenario.storage_of [Scenario.json_blob; Scenario.text_blob])
              [Scenario.status "gs://out-bucket/run/0/";
               Scenario.status "gs://bucket";
               Scenario.status "gs://out-bucket/run/0/"])
           eq_refl).
Defined.

Lemma walk_error_records_are_unparsed_entries_witness :
  observe error_of
    (trace
       (walk
          (Scenario.env_of
             (Scenario.operation (Ok tt) (Scenario.metadata SUCCEEDED "" []))
             [Scenario.json_blob; Scenario.text_blob])
          (Scenario.storage_of [Scenario.json_blob; Scenario.text_blob])
          [Scenario.status "gs://out-bucket/run/0/";
           Scenario.status "gs://bucket";
           Scenario.status "out-bucket/run/0/"]))
  = [("Could not parse output GCS destination:", ["gs://bucket"]);
     ("Could not parse output GCS destination:", ["out-bucket/run/0/"])].
Proof.
  exact (proj2
           (walk_error_records_are_unparsed_entries
              (Scenario.env_of
                 (Scenario.operation (Ok tt)
                    (Scenario.metadata SUCCEEDED "" []))
                 [Scenario.json_blob; Scenario.text_blob])
              (Scenario.storage_of [Scenario.json_blob; Scenario.text_blob])
              [Scenario.status "gs://out-bucket/run/0/";
               Scenario.status "gs://bucket";
               Scenario.status "out-bucket/run/0/"])
           eq_refl).
Defined.

(** * Downloads and decodes go together *)

(** The decodes of [tr] are those its downloads lead to. *)
Lemma decodes_follow_downloads_app (t1 t2 : list event) :
  observe decode_of t1 = flat_map payload_of (downloaded t1) ->
  observe decode_of t2 = flat_map payload_of (downloaded t2) ->
  observe decode_of (t1 ++ t2) = flat_map payload_of (downloaded (t1 ++ t2)).
Proof.
  intros H1 H2.
  now rewrite observe_app, downloaded_app, flat_map_app, H1, H2.
Qed.

Lemma decodes_follow_downloads_bind {A B} (m : M A) (f : A -> M B) :
  observe decode_of (trace m) = flat_map payload_of (downloaded (trace m)) ->
  (forall a, observe decode_of (trace (f a))
             = flat_map payload_of (downloaded (trace (f a)))) ->
  observe decode_of (trace (bind m f))
  = flat_map payload_of (downloaded (trace (bind m f))).
Proof.
  intros Hm Hf.
  destruct (trace_bind m f) as [-> | (a & _ & ->)]; [exact Hm|].
  now apply decodes_follow_downloads_app.
Qed.

Lemma process_blob_decodes (env : Environment) (blob : Blob) :
  observe decode_of (trace (process_blob env blob))
  = flat_map payload_of (downloaded (trace (process_blob env blob))).
Proof.
  unfold process_blob.
  destruct (not_json blob); [reflexivity|].
  unfold logging_info, print, call, emit, bind, payload_of.
  destruct (download_as_bytes blob) as [data|e] eqn:D; simpl.
  - destruct (Document_from_json env data true) as [doc|e]; simpl;
      now rewrite D.
  - now rewrite D.
Qed.

(** X7.  In every walk the decoder is called once for each download that
    returned bytes, on exactly those bytes, in the same order and always
    with ignore_unknown_fields set; a download that raises leads to no
    decode, and nothing is decoded that was not just downloaded. *)
Theorem walk_decodes_what_it_downloads
    (env : Environment) (storage_client : StorageClient)
    (statuses : list IndividualProcessStatus) :
  observe decode_of (trace (walk env storage_client statuses))
  = flat_map payload_of
      (downloaded (trace (walk env storage_client statuses))).
Proof.
  induction statuses as [|process rest IH]; simpl; [reflexivity|].
  apply decodes_follow_downloads_bind; [|intros; exact IH].
  unfold process_status.
  destruct (parse_destination _) as [[bucket prefix]|]; [|reflexivity].
  apply decodes_follow_downloads_bind; [reflexivity | intros _].
  unfold for_output_blobs.
  apply decodes_follow_downloads_bind.
  - induction (items _) as [|blob blobs IHb]; simpl; [reflexivity|].
    apply decodes_follow_downloads_bind;
      [apply process_blob_decodes | intros; exact IHb].
  - intros _. now destruct (failure _).
Qed.

(** * Submission, the single wait, and storage *)

Lemma submission_failure_raises
    (env : Environment)
    (project_id location processor_id
       gcs_output_uri gcs_input_prefix field_mask : option string)
    (timeout : Z) (e : sdk_exception) :
  (new_DocumentProcessorServiceClient env (api_endpoint_of location) = Err e ->
   batch_process_documents env project_id location processor_id
     gcs_output_uri gcs_input_prefix field_mask timeout
   = ([Call (CreateDocumentClient (api_endpoint_of location))],
      Raised (Sdk e)))
  /\ (forall client,
        new_DocumentProcessorServiceClient env (api_endpoint_of location)
        = Ok client ->
        client_batch_process_documents client
          (make_request project_id location processor_id gcs_output_uri
             gcs_input_prefix field_mask) = Err e ->
        batch_process_documents env project_id location processor_id
          gcs_output_uri gcs_input_prefix field_mask timeout
        = (submit_events project_id location processor_id gcs_output_uri
             gcs_input_prefix field_mask,
           Raised (Sdk e))).
Proof.
  unfold batch_process_documents. split.
  - intros H. unfold call. now rewrite H.
  - intros client Hc Hr.
    rewrite (bind_returned _ _ client) by (unfold call; now rewrite Hc).
    unfold call. rewrite Hr. reflexivity.
Qed.

(** X8.  A failure at submission ends the run at once with the SDK's
    exception: when creating the Document AI client raises, only that call
    was made; when the batch request raises, only the client creation and
    the request were made.  In both cases nothing is logged, waited on or
    read from storage. *)
Theorem submission_failure_propagates
    (env : Environment)
    (project_id location processor_id
       gcs_output_uri gcs_input_prefix field_mask : option string)
    (timeout : Z) (e : sdk_exception) :
  let run := batch_process_documents env project_id location processor_id
               gcs_output_uri gcs_input_prefix field_mask timeout in
  let request := make_request project_id location processor_id
                   gcs_output_uri gcs_input_prefix field_mask in
  (new_DocumentProcessorServiceClient env (api_endpoint_of location) = Err e ->
   run = ([Call (CreateDocumentClient (api_endpoint_of location))],
          Raised (Sdk e)))
  /\ (forall client,
        new_DocumentProcessorServiceClient env (api_endpoint_of location)
        = Ok client ->
        client_batch_process_documents client request = Err e ->
        run = ([Call (CreateDocumentClient (api_endpoint_of location));
                Call (BatchProcess request)],
               Raised (Sdk e))).
Proof.
  intros run request. unfold run, batch_process_documents. split.
  - intros H. unfold call. now rewrite H.
  - intros client Hc Hr.
    rewrite (bind_returned _ _ client) by (unfold call; now rewrite Hc).
    fold request. unfold call. rewrite Hr. reflexivity.
Qed.

Lemma submission_failure_propagates_witness :
  batch_process_documents
    {| new_DocumentProcessorServiceClient := fun _ =>
         Ok {| client_batch_process_documents := fun _ =>
                 Err Scenario.invalid_argument |};
       new_storage_Client := Ok (Scenario.storage_of []);
       Document_from_json := Scenario.from_json |}
    (Some "p") (Some "us") (Some "x") (Some "gs://out-bucket/run/")
    (Some "gs://in-bucket/forms/") None default_timeout
  = ([Call (CreateDocumentClient "us-documentai.googleapis.com");
      Call (BatchProcess
              (make_request (Some "p") (Some "us") (Some "x")
                 (Some "gs://out-bucket/run/") (Some "gs://in-bucket/forms/")
                 None))],
     Raised (Sdk Scenario.invalid_argument)).
Proof.
  exact (proj2
           (submission_failure_propagates
              {| new_DocumentProcessorServiceClient := fun _ =>
                   Ok {| client_batch_process_documents := fun _ =>
                           Err Scenario.invalid_argument |};
                 new_storage_Client := Ok (Scenario.storage_of []);
                 Document_from_json := Scenario.from_json |}
              (Some "p") (Some "us") (Some "x") (Some "gs://out-bucket/run/")
              (Some "gs://in-bucket/forms/") None default_timeout
              Scenario.invalid_argument)
           {| client_batch_process_documents := fun _ =>
                Err Scenario.invalid_argument |}
           eq_refl eq_refl).
Defined.

Lemma wait_trace_cases (operation : Operation) (timeout : Z) :
  trace (wait operation timeout) = waiting_events operation timeout
  \/ exists e,
       trace (wait operation timeout)
       = waiting_events operation timeout ++ [Log ERROR (message e) []].
Proof.
  destruct (operation_result operation timeout) as [[]|e] eqn:E.
  - left. now rewrite wait_returns.
  - destruct (catches e) eqn:C.
    + right. exists e. now rewrite (wait_catches _ _ e).
    + left. now rewrite (wait_propagates _ _ e).
Qed.

Lemma check_and_walk_events (env : Environment) (operation : Operation) :
  Forall after_check_event (trace (check_and_walk env operation)).
Proof.
  unfold check_and_walk, check_state, logging_info.
  apply Forall_trace_bind.
  - destruct (negb _); constructor.
  - intros _. apply Forall_trace_bind; [repeat constructor | intros sc].
    apply Forall_trace_bind; [repeat constructor | intros _].
    eapply Forall_impl; [|apply walk_events].
    intros [[] ? ?| |[]]; simpl; tauto.
Qed.

Lemma after_wait_trace (env : Environment) (operation : Operation)
    (timeout : Z) :
  exists tail,
    trace (wait operation timeout ;; check_and_walk env operation)
    = trace (wait operation timeout) ++ tail
    /\ Forall after_check_event tail.
Proof.
  destruct (trace_bind (wait operation timeout)
              (fun _ => check_and_walk env operation))
    as [H | (a & _ & H)]; rewrite H.
  - exists []. now rewrite app_nil_r.
  - exists (trace (check_and_walk env operation)).
    split; [reflexivity | apply check_and_walk_events].
Qed.

(** X9.  Once the job is submitted, every run, however it ends, has sent
    exactly one batch request (the one built from the arguments) and has
    waited on the operation exactly once, with the timeout it was given:
    after a timed-out wait the job is neither polled again nor
    resubmitted. *)
Theorem one_submission_one_wait
    (env : Environment)
    (project_id location processor_id
       gcs_output_uri gcs_input_prefix field_mask : option string)
    (timeout : Z) (operation : Operation) :
  let run := batch_process_documents env project_id location processor_id
               gcs_output_uri gcs_input_prefix field_mask timeout in
  submitted env project_id location processor_id gcs_output_uri
    gcs_input_prefix field_mask operation ->
  observe submission_of (trace run)
  = [make_request project_id location processor_id gcs_output_uri
       gcs_input_prefix field_mask]
  /\ observe wait_of (trace run) = [timeout].
Proof.
  intros run Hsub. unfold run.
  rewrite (run_after_submit _ _ _ _ _ _ _ _ _ Hsub), trace_after.
  destruct (after_wait_trace env operation timeout) as (tail & -> & Ht).
  assert (S : observe submission_of tail = [])
    by (apply (observe_none _ after_check_event); [|exact Ht];
        intros [[] ? ?| |[]]; simpl; tauto).
  assert (W : observe wait_of tail = [])
    by (apply (observe_none _ after_check_event); [|exact Ht];
        intros [[] ? ?| |[]]; simpl; tauto).
  rewrite !observe_app, S, W.
  destruct (wait_trace_cases operation timeout) as [-> | [e ->]];
    now split.
Qed.

Lemma one_submission_one_wait_witness :
  observe wait_of
    (trace
       (Scenario.run
          (Scenario.operation (Err Scenario.deadline_exceeded)
             (Scenario.metadata SUCCEEDED "" ["gs://out-bucket/run/0/"]))
          [Scenario.json_blob; Scenario.text_blob]))
  = [400%Z].
Proof.
  exact (proj2
           (one_submission_one_wait _ _ _ _ _ _ _ default_timeout _
              (scenario_submitted
                 (Scenario.operation (Err Scenario.deadline_exceeded)
                    (Scenario.metadata SUCCEEDED ""
                       ["gs://out-bucket/run/0/"]))
                 [Scenario.json_blob; Scenario.text_blob]))).
Defined.

(** X10.  When the job's terminal state is not succeeded, the run never
    touches storage and prints nothing, whatever the wait did: no storage
    client is created, nothing is listed, downloaded or decoded. *)
Theorem failed_job_never_touches_storage
    (env : Environment)
    (project_id location processor_id
       gcs_output_uri gcs_input_prefix field_mask : option string)
    (timeout : Z) (operation : Operation) :
  let run := batch_process_documents env project_id location processor_id
               gcs_output_uri gcs_input_prefix field_mask timeout in
  submitted env project_id location processor_id gcs_output_uri
    gcs_input_prefix field_mask operation ->
  state (BatchProcessMetadata_of (operation_metadata operation))
  <> SUCCEEDED ->
  observe storage_call_of (trace run) = [] /\ printed (trace run) = [].
Proof.
  intros run Hsub Hs. unfold run.
  rewrite (run_after_submit _ _ _ _ _ _ _ _ _ Hsub), trace_after.
  assert (T : trace (wait operation timeout ;; check_and_walk env operation)
              = trace (wait operation timeout)).
  { rewrite (check_and_walk_failed env operation Hs).
    destruct (trace_bind (wait operation timeout)
                (fun _ => raise (A := unit)
                            (ValueError
                               ("Batch Process Failed: "
                                +++ state_message
                                      (BatchProcessMetadata_of
                                         (operation_metadata operation))))))
      as [H | (a & _ & H)]; rewrite H; [reflexivity | apply app_nil_r]. }
  rewrite T, observe_app, printed_app.
  destruct (wait_trace_cases operation timeout) as [-> | [e ->]];
    now split.
Qed.

Lemma failed_job_never_touches_storage_witness :
  observe storage_call_of
    (trace
       (Scenario.run
          (Scenario.operation (Ok tt)
             (Scenario.metadata CANCELLED "" ["gs://out-bucket/run/0/"]))
          [Scenario.json_blob]))
  = [].
Proof.
  assert (Hs : state
                 (BatchProcessMetadata_of
                    (operation_metadata
                       (Scenario.operation (Ok tt)
                          (Scenario.metadata CANCELLED ""
                             ["gs://out-bucket/run/0/"]))))
               <> SUCCEEDED) by discriminate.
  exact (proj1
           (failed_job_never_touches_storage _ _ _ _ _ _ _ default_timeout _
              (scenario_submitted _ [Scenario.json_blob]) Hs)).
Defined.

(** * The script *)

(** X11.  The script ends as its call of batch_process_documents ends.  It
    logs Starting Task first; it logs Completed Task, as its last record,
    only when the call returned; when the call raised, the exception leaves
    the script and nothing is logged after it. *)
Theorem script_logs_completion_only_on_return
    (os_environ : Environ) (env : Environment) :
  let starting :=
    Log INFO ("Starting Task #" +++ TASK_INDEX os_environ
              +++ ", Attempt #" +++ TASK_ATTEMPT os_environ +++ "...") [] in
  let completed :=
    Log INFO ("Completed Task #" +++ TASK_INDEX os_environ +++ ".") [] in
  ending (main os_environ env) = ending (script_call os_environ env)
  /\ (ending (script_call os_environ env) = Returned tt ->
      trace (main os_environ env)
      = starting :: trace (script_call os_environ env) ++ [completed])
  /\ (forall e,
        ending (script_call os_environ env) = Raised e ->
        trace (main os_environ env)
        = starting :: trace (script_call os_environ env)).
Proof.
  intros starting completed. unfold main, logging_info.
  rewrite emit_bind. fold starting.
  destruct (script_call os_environ env) as [tr [[]|e]] eqn:E.
  - rewrite (bind_returned _ _ tt) by reflexivity.
    split; [reflexivity|]. split; [reflexivity | discriminate].
  - split; [reflexivity|]. split; [discriminate | reflexivity].
Qed.

Lemma script_logs_completion_only_on_return_witness :
  trace
    (main (fun _ => None)
       (Scenario.env_of
          (Scenario.operation (Ok tt) (Scenario.metadata SUCCEEDED "" []))
          []))
  = Log INFO "Starting Task #0, Attempt #0..." []
    :: trace
         (script_call (fun _ => None)
            (Scenario.env_of
               (Scenario.operation (Ok tt)
                  (Scenario.metadata SUCCEEDED "" []))
               []))
       ++ [Log INFO "Completed Task #0." []].
Proof.
  exact (proj1 (proj2
           (script_logs_completion_only_on_return (fun _ => None)
              (Scenario.env_of
                 (Scenario.operation (Ok tt)
                    (Scenario.metadata SUCCEEDED "" []))
                 [])))
           eq_refl).
Defined.

Lemma script_logs_completion_trace (os_environ : Environ)
    (env : Environment) :
  trace (main os_environ env)
  = [Log INFO ("Starting Task #" +++ TASK_INDEX os_environ
               +++ ", Attempt #" +++ TASK_ATTEMPT os_environ +++ "...") []]
    ++ trace (script_call os_environ env)
    ++ [Log INFO ("Completed Task #" +++ TASK_INDEX os_environ +++ ".") []]
  \/ trace (main os_environ env)
     = [Log INFO ("Starting Task #" +++ TASK_INDEX os_environ
                  +++ ", Attempt #" +++ TASK_ATTEMPT os_environ +++ "...") []]
       ++ trace (script_call os_environ env) ++ [].
Proof.
  unfold main, logging_info. rewrite emit_bind, trace_after.
  destruct (script_call os_environ env) as [tr [[]|e]].
  - left. now rewrite (bind_returned _ _ tt).
  - right. simpl. now rewrite app_nil_r.
Qed.

(** X12.  Whatever the environment holds, the script passes its variables
    on unchecked, a variable that is not set going in as None: once the job
    is submitted, the one request sent reads its input from
    GCS_INPUT_PREFIX, writes its output to GCS_OUTPUT_PREFIX, names the
    processor by PROJECT_ID, LOCATION and PROCESSOR_ID and carries no field
    mask, and the one wait uses the default timeout of 400. *)
Theorem script_request_and_timeout
    (os_environ : Environ) (env : Environment) (operation : Operation) :
  submitted env
    (os_environ "PROJECT_ID") (os_environ "LOCATION")
    (os_environ "PROCESSOR_ID") (os_environ "GCS_OUTPUT_PREFIX")
    (os_environ "GCS_INPUT_PREFIX") None operation ->
  observe submission_of (trace (main os_environ env))
  = [{| request_name :=
          processor_path (os_environ "PROJECT_ID") (os_environ "LOCATION")
            (os_environ "PROCESSOR_ID");
        gcs_uri_prefix := os_environ "GCS_INPUT_PREFIX";
        gcs_uri := os_environ "GCS_OUTPUT_PREFIX";
        output_field_mask := None |}]
  /\ observe wait_of (trace (main os_environ env)) = [400%Z].
Proof.
  intros Hsub.
  assert (R : exists tail,
            trace (script_call os_environ env)
            = submit_events (os_environ "PROJECT_ID") (os_environ "LOCATION")
                (os_environ "PROCESSOR_ID") (os_environ "GCS_OUTPUT_PREFIX")
                (os_environ "GCS_INPUT_PREFIX") None
              ++ trace (wait operation default_timeout) ++ tail
            /\ Forall after_check_event tail).
  { unfold script_call, PROJECT_ID, LOCATION, PROCESSOR_ID,
      GCS_OUTPUT_PREFIX, GCS_INPUT_PREFIX, getenv.
    rewrite (run_after_submit _ _ _ _ _ _ _ _ _ Hsub), trace_after.
    destruct (after_wait_trace env operation default_timeout)
      as (tail & -> & Ht).
    now exists tail. }
  destruct R as (tail & Ht & Hf).
  assert (S : observe submission_of tail = [])
    by (apply (observe_none _ after_check_event); [|exact Hf];
        intros [[] ? ?| |[]]; simpl; tauto).
  assert (W : observe wait_of tail = [])
    by (apply (observe_none _ after_check_event); [|exact Hf];
        intros [[] ? ?| |[]]; simpl; tauto).
  destruct (script_logs_completion_trace os_environ env) as [-> | ->];
    rewrite Ht;
    repeat (rewrite !observe_app || simpl observe);
    rewrite S, W;
    destruct (wait_trace_cases operation default_timeout) as [-> | [e ->]];
    now split.
Qed.

Lemma script_request_and_timeout_witness :
  observe submission_of
    (trace
       (main (fun _ => None)
          (Scenario.env_of
             (Scenario.operation (Ok tt) (Scenario.metadata SUCCEEDED "" []))
             [])))
  = [{| request_name := "projects/None/locations/None/processors/None";
        gcs_uri_prefix := None;
        gcs_uri := None;
        output_field_mask := None |}]
  /\ observe wait_of
       (trace
          (main (fun _ => None)
             (Scenario.env_of
                (Scenario.operation (Ok tt)
                   (Scenario.metadata SUCCEEDED "" []))
                [])))
     = [400%Z].
Proof.
  assert (Hsub : submitted
                   (Scenario.env_of
                      (Scenario.operation (Ok tt)
                         (Scenario.metadata SUCCEEDED "" []))
                      [])
                   None None None None None None
                   (Scenario.operation (Ok tt)
                      (Scenario.metadata SUCCEEDED "" []))).
  { eexists. split; reflexivity. }
  exact (script_request_and_timeout (fun _ => None) _ _ Hsub).
Defined.

(** * How a run can end *)

(** X13.  A run ends with the program's own ValueError in exactly one
    situation: the job was submitted, the wait returned or raised an
    exception that line 94 catches, and the terminal state is not
    succeeded; the message is then Batch Process Failed: followed by the
    state message.  In every other run that raises, the exception comes out
    of an SDK call. *)
Theorem value_error_exactly_on_failed_state
    (env : Environment)
    (project_id location processor_id
       gcs_output_uri gcs_input_prefix field_mask : option string)
    (timeout : Z) (msg : string) :
  ending
    (batch_process_documents env project_id location processor_id
       gcs_output_uri gcs_input_prefix field_mask timeout)
  = Raised (ValueError msg)
  <-> exists operation,
        submitted env project_id location processor_id gcs_output_uri
          gcs_input_prefix field_mask operation
        /\ wait_passes operation timeout
        /\ state (BatchProcessMetadata_of (operation_metadata operation))
           <> SUCCEEDED
        /\ msg = "Batch Process Failed: "
                 +++ state_message
                       (BatchProcessMetadata_of
                          (operation_metadata operation)).
Proof.
  split.
  - intros H.
    destruct (new_DocumentProcessorServiceClient env
                (api_endpoint_of location)) as [client|e] eqn:Hc.
    2:{ rewrite (proj1 (submission_failure_raises env project_id location
                          processor_id gcs_output_uri gcs_input_prefix
                          field_mask timeout e) Hc) in H.
        discriminate. }
    destruct (client_batch_process_documents client
                (make_request project_id location processor_id
                   gcs_output_uri gcs_input_prefix field_mask))
      as [operation|e] eqn:Hr.
    2:{ rewrite (proj2 (submission_failure_raises env project_id location
                          processor_id gcs_output_uri gcs_input_prefix
                          field_mask timeout e) client Hc Hr) in H.
        discriminate. }
    assert (Hsub : submitted env project_id location processor_id
                     gcs_output_uri gcs_input_prefix field_mask operation)
      by (exists client; now split).
    exists operation. split; [exact Hsub|].
    destruct (State_eqb
                (state (BatchProcessMetadata_of
                          (operation_metadata operation))) SUCCEEDED) eqn:S.
    + apply State_eqb_spec in S.
      now destruct (run_never_value_error_when_succeeded env _ _ _ _ _ _
                      timeout _ Hsub S msg).
    + assert (Hs : state (BatchProcessMetadata_of
                            (operation_metadata operation)) <> SUCCEEDED)
        by (intros E; apply State_eqb_spec in E; congruence).
      assert (Hw : wait_passes operation timeout).
      { unfold wait_passes.
        destruct (operation_result operation timeout) as [[]|e] eqn:E;
          [exact I|].
        destruct (catches e) eqn:C; [reflexivity|].
        rewrite (run_uncaught_wait env _ _ _ _ _ _ timeout _ Hsub e E C)
          in H.
        discriminate. }
      rewrite (run_failed_state env _ _ _ _ _ _ timeout _ Hsub Hw Hs) in H.
      injection H as <-. now repeat split.
  - intros (operation & Hsub & Hw & Hs & ->).
    now rewrite (run_failed_state env _ _ _ _ _ _ _ _ Hsub Hw Hs).
Qed.

(** * A listing that fails part-way *)

(** X14.  When the listing of a parsable entry yields some objects and then
    raises, the objects it yielded have already been fetched and their
    texts printed; the exception then ends the walk, and the entries after
    it are never visited. *)
Theorem listing_failure_after_items
    (env : Environment) (storage_client : StorageClient)
    (process : IndividualProcessStatus)
    (rest : list IndividualProcessStatus)
    (bucket prefix : string) (e : sdk_exception) :
  parse_destination (output_gcs_destination process)
  = Some (bucket, prefix) ->
  failure (list_blobs storage_client bucket prefix) = Some e ->
  Forall (blob_readable env)
    (items (list_blobs storage_client bucket prefix)) ->
  ending (walk env storage_client (process :: rest)) = Raised (Sdk e)
  /\ downloaded (trace (walk env storage_client (process :: rest)))
     = json_blobs (items (list_blobs storage_client bucket prefix))
  /\ printed (trace (walk env storage_client (process :: rest)))
     = lines_of (flat_map (source_and_text env)
                   (json_blobs
                      (items (list_blobs storage_client bucket prefix))))
  /\ observe listing_of (trace (walk env storage_client (process :: rest)))
     = [(bucket, prefix)].
Proof.
  intros Hp Hf Hb.
  destruct (for_blobs_succeeds env _ Hb) as (F1 & F2 & F3 & _).
  assert (L : observe listing_of
                (trace (for_blobs env
                          (items (list_blobs storage_client bucket prefix))))
              = []).
  { apply (observe_none _ blob_event).
    - intros [[] ? ?| |[]]; simpl; tauto.
    - apply for_blobs_events. }
  assert (P : process_status env storage_client process
              = (Call (ListBlobs bucket prefix)
                 :: trace (for_blobs env
                             (items (list_blobs storage_client bucket prefix))),
                 Raised (Sdk e))).
  { unfold process_status. rewrite Hp, emit_bind.
    unfold for_output_blobs.
    rewrite (bind_returned _ _ tt) by exact F1.
    rewrite Hf. unfold after, raise, trace, ending; simpl.
    now rewrite app_nil_r. }
  simpl walk. rewrite (bind_raised _ _ (Sdk e)) by now rewrite P.
  rewrite P. unfold trace at 1 2 4, ending; simpl fst; simpl snd.
  split; [reflexivity|]. split; [exact F3|]. split; [exact F2|].
  change (Call (ListBlobs bucket prefix) :: ?t)
    with ([Call (ListBlobs bucket prefix)] ++ t).
  simpl. fold (observe listing_of
                 (trace (for_blobs env
                           (items (list_blobs storage_client bucket prefix))))).
  now rewrite L.
Qed.

Lemma listing_failure_after_items_witness :
  ending
    (walk
       (Scenario.env_of
          (Scenario.operation (Ok tt) (Scenario.metadata SUCCEEDED "" []))
          [])
       {| list_blobs := fun _ _ =>
            {| items := [Scenario.json_blob; Scenario.text_blob];
               failure := Some Scenario.internal_error |} |}
       [Scenario.status "gs://out-bucket/run/0/";
        Scenario.status "gs://out-bucket/run/1/"])
  = Raised (Sdk Scenario.internal_error)
  /\ printed
       (trace
          (walk
             (Scenario.env_of
                (Scenario.operation (Ok tt)
                   (Scenario.metadata SUCCEEDED "" []))
                [])
             {| list_blobs := fun _ _ =>
                  {| items := [Scenario.json_blob; Scenario.text_blob];
                     failure := Some Scenario.internal_error |} |}
             [Scenario.status "gs://out-bucket/run/0/";
              Scenario.status "gs://out-bucket/run/1/"]))
     = [text_header; "Invoice 42"].
Proof.
  assert (R : Forall
                (blob_readable
                   (Scenario.env_of
                      (Scenario.operation (Ok tt)
                         (Scenario.metadata SUCCEEDED "" []))
                      []))
                [Scenario.json_blob; Scenario.text_blob]).
  { constructor; [|constructor; [|constructor]].
    - intros _. exists {| text := "Invoice 42" |}. reflexivity.
    - intros H. discriminate H. }
  pose proof
    (listing_failure_after_items
       (Scenario.env_of
          (Scenario.operation (Ok tt) (Scenario.metadata SUCCEEDED "" []))
          [])
       {| list_blobs := fun _ _ =>
            {| items := [Scenario.json_blob; Scenario.text_blob];
               failure := Some Scenario.internal_error |} |}
       (Scenario.status "gs://out-bucket/run/0/")
       [Scenario.status "gs://out-bucket/run/1/"]
       "out-bucket" "run/0/" Scenario.internal_error
       eq_refl eq_refl R) as (H1 & _ & H3 & _).
  split; [exact H1 | exact H3].
Defined.

(** * A wait that fails *)

(** C7, at its failing input: the local wait runs out, so operation.result
    raises a TimeoutError, while the job's metadata reports SUCCEEDED.  The
    except clause of line 94 does not name that class, although the comment
    of line 93 says the exception of a wait that does not finish in time is
    caught: the exception leaves the function at line 92.  Nothing is
    logged as an error, the metadata is not read, storage is not touched
    and nothing is printed, so the timeout excludes the success path. *)
Theorem local_timeout_aborts_succeeded_run :
  catches Scenario.timeout_error = false
  /\ state
       (BatchProcessMetadata_of
          (operation_metadata
             (Scenario.operation (Err Scenario.timeout_error)
                (Scenario.metadata SUCCEEDED ""
                   ["gs://out-bucket/run/0/"]))))
     = SUCCEEDED
  /\ Scenario.run
       (Scenario.operation (Err Scenario.timeout_error)
          (Scenario.metadata SUCCEEDED "" ["gs://out-bucket/run/0/"]))
       [Scenario.json_blob; Scenario.text_blob]
     = (submit_events (Some "p") (Some "us") (Some "ac27785bf4bee278")
          (Some "gs://out-bucket/run/") (Some "gs://in-bucket/forms/") None
        ++ waiting_events
             (Scenario.operation (Err Scenario.timeout_error)
                (Scenario.metadata SUCCEEDED "" ["gs://out-bucket/run/0/"]))
             default_timeout,
        Raised (Sdk Scenario.timeout_error))
  /\ observe error_of
       (trace
          (Scenario.run
             (Scenario.operation (Err Scenario.timeout_error)
                (Scenario.metadata SUCCEEDED "" ["gs://out-bucket/run/0/"]))
             [Scenario.json_blob; Scenario.text_blob]))
     = []
  /\ observe storage_call_of
       (trace
          (Scenario.run
             (Scenario.operation (Err Scenario.timeout_error)
                (Scenario.metadata SUCCEEDED "" ["gs://out-bucket/run/0/"]))
             [Scenario.json_blob; Scenario.text_blob]))
     = []
  /\ printed
       (trace
          (Scenario.run
             (Scenario.operation (Err Scenario.timeout_error)
                (Scenario.metadata SUCCEEDED "" ["gs://out-bucket/run/0/"]))
             [Scenario.json_blob; Scenario.text_blob]))
     = [].
Proof.
  split; [reflexivity|]. split; [reflexivity|].
  assert (R : Scenario.run
                (Scenario.operation (Err Scenario.timeout_error)
                   (Scenario.metadata SUCCEEDED ""
                      ["gs://out-bucket/run/0/"]))
                [Scenario.json_blob; Scenario.text_blob]
              = (submit_events (Some "p") (Some "us")
                   (Some "ac27785bf4bee278") (Some "gs://out-bucket/run/")
                   (Some "gs://in-bucket/forms/") None
                 ++ waiting_events
                      (Scenario.operation (Err Scenario.timeout_error)
                         (Scenario.metadata SUCCEEDED ""
                            ["gs://out-bucket/run/0/"]))
                      default_timeout,
                 Raised (Sdk Scenario.timeout_error))).
  { apply (run_uncaught_wait _ _ _ _ _ _ _ default_timeout
             (Scenario.operation (Err Scenario.timeout_error)
                (Scenario.metadata SUCCEEDED "" ["gs://out-bucket/run/0/"]))
             (scenario_submitted _ [Scenario.json_blob; Scenario.text_blob])
             Scenario.timeout_error);
      reflexivity. }
  rewrite R. repeat split.
Qed.

(** C2, as it fails: the wait fails with a transient error of a class that
    line 94 does not name (a 503, ServiceUnavailable).  The exception
    leaves the function at line 92: it is not logged, and the metadata,
    which reports FAILED, is never checked. *)
Lemma uncaught_transient_error_aborts_run :
  Scenario.run
    (Scenario.operation (Err Scenario.service_unavailable)
       (Scenario.metadata FAILED "quota exceeded" ["gs://out-bucket/run/0/"]))
    [Scenario.json_blob]
  = (submit_events (Some "p") (Some "us") (Some "ac27785bf4bee278")
       (Some "gs://out-bucket/run/") (Some "gs://in-bucket/forms/") None
     ++ waiting_events
          (Scenario.operation (Err Scenario.service_unavailable)
             (Scenario.metadata FAILED "quota exceeded"
                ["gs://out-bucket/run/0/"]))
          default_timeout,
     Raised (Sdk Scenario.service_unavailable))
  /\ observe error_of
       (trace
          (Scenario.run
             (Scenario.operation (Err Scenario.service_unavailable)
                (Scenario.metadata FAILED "quota exceeded"
                   ["gs://out-bucket/run/0/"]))
             [Scenario.json_blob]))
     = [].
Proof. split; reflexivity. Qed.

(** C2, amended.  When the wait on the operation raises a RetryError or an
    InternalServerError, the two classes line 94 names, the run logs the
    exception's message as an error, the first error record of the run, and
    goes on to build the metadata and check its state.  Such a failed wait
    is never by itself a job failure: the run ends with the job-failure
    ValueError, carrying the state message, exactly when the metadata state
    is not succeeded, and otherwise ends as the walk over the outputs
    ends. *)
Theorem wait_failure_logged_then_state_checked
    (env : Environment)
    (project_id location processor_id
       gcs_output_uri gcs_input_prefix field_mask : option string)
    (timeout : Z) (operation : Operation) (e : sdk_exception) :
  let metadata := BatchProcessMetadata_of (operation_metadata operation) in
  let run := batch_process_documents env project_id location processor_id
               gcs_output_uri gcs_input_prefix field_mask timeout in
  let submission := submit_events project_id location processor_id
                      gcs_output_uri gcs_input_prefix field_mask in
  submitted env project_id location processor_id gcs_output_uri
    gcs_input_prefix field_mask operation ->
  operation_result operation timeout = Err e ->
  exc_class e = RetryError \/ exc_class e = InternalServerError ->
  run = after (submission ++ waiting_events operation timeout
               ++ [Log ERROR (message e) []])
          (check_and_walk env operation)
  /\ (exists rest,
        observe error_of (trace run) = (message e, []) :: rest)
  /\ ((exists msg, ending run = Raised (ValueError msg))
      <-> state metadata <> SUCCEEDED)
  /\ (state metadata <> SUCCEEDED ->
      ending run
      = Raised (ValueError
                  ("Batch Process Failed: " +++ state_message metadata)))
  /\ (state metadata = SUCCEEDED ->
      ending run = ending (open_storage_and_walk env metadata)).
Proof.
  intros metadata run submission Hsub He Hc.
  assert (C : catches e = true)
    by (unfold catches; destruct Hc as [-> | ->]; reflexivity).
  assert (Hw : wait_passes operation timeout)
    by (unfold wait_passes; now rewrite He).
  assert (R : run = after (submission ++ waiting_events operation timeout
                           ++ [Log ERROR (message e) []])
                      (check_and_walk env operation)).
  { unfold run. rewrite (run_after_wait _ _ _ _ _ _ _ _ _ Hsub Hw).
    now rewrite (wait_catches _ _ e He C). }
  assert (F : state metadata <> SUCCEEDED ->
              ending run
              = Raised (ValueError
                          ("Batch Process Failed: "
                           +++ state_message metadata))).
  { intros Hs. unfold run.
    now rewrite (run_failed_state env _ _ _ _ _ _ _ _ Hsub Hw Hs). }
  split; [exact R|]. split; [|split; [|split]].
  - rewrite R, trace_after, !observe_app. simpl. eauto.
  - split.
    + intros [msg Hm] Hs.
      exact (run_never_value_error_when_succeeded env _ _ _ _ _ _ _ _
               Hsub Hs msg Hm).
    + intros Hs. eexists. now apply F.
  - exact F.
  - intros Hs. unfold run.
    now rewrite (run_succeeded_state env _ _ _ _ _ _ _ _ Hsub Hw Hs).
Qed.

Lemma wait_failure_logged_then_state_checked_witness :
  ending
    (Scenario.run
       (Scenario.operation (Err Scenario.internal_error)
          (Scenario.metadata FAILED "quota exceeded"
             ["gs://out-bucket/run/0/"]))
       [Scenario.json_blob; Scenario.text_blob])
  = Raised (ValueError "Batch Process Failed: quota exceeded")
  /\ ending
       (Scenario.run
          (Scenario.operation (Err Scenario.deadline_exceeded)
             (Scenario.metadata SUCCEEDED "" ["gs://out-bucket/run/0/"]))
          [Scenario.json_blob; Scenario.text_blob])
     = Returned tt.
Proof.
  assert (Hs : state
                 (BatchProcessMetadata_of
                    (operation_metadata
                       (Scenario.operation (Err Scenario.internal_error)
                          (Scenario.metadata FAILED "quota exceeded"
                             ["gs://out-bucket/run/0/"]))))
               <> SUCCEEDED) by discriminate.
  split.
  - exact (proj1 (proj2 (proj2 (proj2
             (wait_failure_logged_then_state_checked _ _ _ _ _ _ _
                default_timeout
                (Scenario.operation (Err Scenario.internal_error)
                   (Scenario.metadata FAILED "quota exceeded"
                      ["gs://out-bucket/run/0/"]))
                Scenario.internal_error
                (scenario_submitted _
                   [Scenario.json_blob; Scenario.text_blob])
                eq_refl (or_intror eq_refl)))))
             Hs).
  - exact (proj2 (proj2 (proj2 (proj2
             (wait_failure_logged_then_state_checked _ _ _ _ _ _ _
                default_timeout
                (Scenario.operation (Err Scenario.deadline_exceeded)
                   (Scenario.metadata SUCCEEDED ""
                      ["gs://out-bucket/run/0/"]))
                Scenario.deadline_exceeded
                (scenario_submitted _
                   [Scenario.json_blob; Scenario.text_blob])
                eq_refl (or_introl eq_refl)))))
             eq_refl).
Defined.

(** * Where a succeeded run can stop *)

Lemma process_blob_readable_returns (env : Environment) (blob : Blob) :
  blob_readable env blob -> ending (process_blob env blob) = Returned tt.
Proof.
  intros H. destruct (not_json blob) eqn:J.
  - now rewrite process_blob_not_json.
  - destruct (H J) as [document Hd].
    now destruct (process_blob_json env blob document J Hd).
Qed.

Lemma for_blobs_app_readable (env : Environment) (blobs rest : list Blob) :
  Forall (blob_readable env) blobs ->
  for_blobs env (blobs ++ rest)
  = after (trace (for_blobs env blobs)) (for_blobs env rest).
Proof.
  induction 1 as [|blob blobs Hb _ IH]; simpl; [now rewrite after_nil|].
  rewrite !(bind_returned _ _ tt)
    by now apply process_blob_readable_returns.
  now rewrite IH, after_after, trace_after.
Qed.

Lemma walk_app_succeeds (env : Environment) (storage_client : StorageClient)
    (before rest : list IndividualProcessStatus) :
  walk_succeeds env storage_client before ->
  walk env storage_client (before ++ rest)
  = after (trace (walk env storage_client before))
      (walk env storage_client rest).
Proof.
  induction 1 as [|process before Hp _ IH]; simpl; [now rewrite after_nil|].
  rewrite !(bind_returned _ _ tt)
    by now destruct (process_status_succeeds env storage_client process Hp).
  now rewrite IH, after_after, trace_after.
Qed.

Lemma walk_returned_succeeds (env : Environment)
    (storage_client : StorageClient)
    (statuses : list IndividualProcessStatus) :
  ending (walk env storage_client statuses) = Returned tt ->
  walk_succeeds env storage_client statuses.
Proof.
  induction statuses as [|process rest IH]; simpl; [constructor|].
  intros H. apply bind_returned_inv in H as ([] & H1 & H2).
  constructor; [now apply process_status_returned | now apply IH].
Qed.

(** A JSON-typed blob whose download or decode raises ends its loop body
    with that exception, after the download was requested. *)
Lemma process_blob_fails (env : Environment) (blob : Blob)
    (e : sdk_exception) :
  not_json blob = false -> blob_document env blob = Err e ->
  ending (process_blob env blob) = Raised (Sdk e)
  /\ downloaded (trace (process_blob env blob)) = [blob]
  /\ printed (trace (process_blob env blob)) = [].
Proof.
  unfold process_blob, blob_document. intros -> H.
  unfold logging_info, print, call, emit, bind.
  destruct (download_as_bytes blob) as [data|e'].
  - rewrite H. now repeat split.
  - injection H as ->. now repeat split.
Qed.

Lemma process_status_fails_at_blob (env : Environment)
    (storage_client : StorageClient) (process : IndividualProcessStatus)
    (bucket prefix : string) (earlier later : list Blob) (blob : Blob)
    (e : sdk_exception) :
  parse_destination (output_gcs_destination process)
  = Some (bucket, prefix) ->
  items (list_blobs storage_client bucket prefix)
  = earlier ++ blob :: later ->
  Forall (blob_readable env) earlier ->
  not_json blob = false -> blob_document env blob = Err e ->
  ending (process_status env storage_client process) = Raised (Sdk e)
  /\ downloaded (trace (process_status env storage_client process))
     = json_blobs earlier ++ [blob].
Proof.
  intros Hp Hi He J Hd.
  destruct (for_blobs_succeeds env earlier He) as (_ & _ & F3 & _).
  destruct (process_blob_fails env blob e J Hd) as (B1 & B2 & _).
  assert (F : for_blobs env (earlier ++ blob :: later)
              = (trace (for_blobs env earlier)
                 ++ trace (process_blob env blob),
                 Raised (Sdk e))).
  { rewrite (for_blobs_app_readable env earlier _ He). simpl.
    now rewrite (bind_raised _ _ (Sdk e)) by exact B1. }
  unfold process_status. rewrite Hp, emit_bind.
  unfold for_output_blobs. rewrite Hi.
  rewrite (bind_raised _ _ (Sdk e)) by now rewrite F.
  rewrite F. split; [reflexivity|].
  rewrite trace_after. unfold trace at 1. simpl fst.
  now rewrite !downloaded_app, F3, B2.
Qed.

Lemma process_status_fails_at_listing (env : Environment)
    (storage_client : StorageClient) (process : IndividualProcessStatus)
    (bucket prefix : string) (e : sdk_exception) :
  parse_destination (output_gcs_destination process)
  = Some (bucket, prefix) ->
  failure (list_blobs storage_client bucket prefix) = Some e ->
  Forall (blob_readable env)
    (items (list_blobs storage_client bucket prefix)) ->
  ending (process_status env storage_client process) = Raised (Sdk e)
  /\ downloaded (trace (process_status env storage_client process))
     = json_blobs (items (list_blobs storage_client bucket prefix)).
Proof.
  intros Hp Hf Hb.
  destruct (for_blobs_succeeds env _ Hb) as (F1 & _ & F3 & _).
  unfold process_status. rewrite Hp, emit_bind.
  unfold for_output_blobs.
  rewrite (bind_returned _ _ tt) by exact F1.
  rewrite Hf. split; [reflexivity|].
  rewrite !trace_after, !downloaded_app, F3. simpl.
  now rewrite app_nil_r.
Qed.

(** The walk stops at the first entry whose loop body raises. *)
Lemma walk_stops_at (env : Environment) (storage_client : StorageClient)
    (before after_it : list IndividualProcessStatus)
    (process : IndividualProcessStatus) (ex : exn) :
  walk_succeeds env storage_client before ->
  ending (process_status env storage_client process) = Raised ex ->
  ending (walk env storage_client (before ++ process :: after_it))
  = Raised ex
  /\ downloaded
       (trace (walk env storage_client (before ++ process :: after_it)))
     = visited storage_client before
       ++ downloaded (trace (process_status env storage_client process)).
Proof.
  intros Hb Hp.
  destruct (walk_succeeds_run env storage_client before Hb)
    as (_ & _ & W3 & _).
  rewrite (walk_app_succeeds env storage_client before _ Hb).
  change (walk env storage_client (process :: after_it))
    with (process_status env storage_client process ;;
          walk env storage_client after_it).
  rewrite (bind_raised _ _ ex) by exact Hp.
  split; [reflexivity|].
  rewrite trace_after, downloaded_app, W3. reflexivity.
Qed.

(** ** What a run logs *)

Lemma process_blob_log (env : Environment) (blob : Blob) :
  observe log_of (trace (process_blob env blob)) = [blob_log blob].
Proof.
  unfold process_blob, blob_log.
  destruct (not_json blob); [reflexivity|].
  unfold logging_info, print, call, emit, bind.
  destruct (download_as_bytes blob) as [data|e]; [|reflexivity].
  simpl. now destruct (Document_from_json env data true).
Qed.

Lemma for_blobs_log (env : Environment) (blobs : list Blob) :
  Forall (blob_readable env) blobs ->
  observe log_of (trace (for_blobs env blobs))
  = flat_map (fun blob => [blob_log blob]) blobs.
Proof.
  induction 1 as [|blob blobs Hb _ IH]; simpl; [reflexivity|].
  rewrite (bind_returned _ _ tt) by now apply process_blob_readable_returns.
  now rewrite trace_after, observe_app, process_blob_log, IH.
Qed.

Lemma walk_log_succeeds (env : Environment) (storage_client : StorageClient)
    (statuses : list IndividualProcessStatus) :
  walk_succeeds env storage_client statuses ->
  observe log_of (trace (walk env storage_client statuses))
  = walk_log storage_client statuses.
Proof.
  induction 1 as [|process rest Hp _ IH]; simpl; [reflexivity|].
  rewrite (bind_returned _ _ tt)
    by now destruct (process_status_succeeds env storage_client process Hp).
  rewrite trace_after, observe_app, IH. f_equal.
  unfold listing_succeeds in Hp. unfold process_status, status_log.
  destruct (parse_destination _) as [[bucket prefix]|]; [|reflexivity].
  destruct Hp as [Hf Hb].
  destruct (for_blobs_succeeds env _ Hb) as (F1 & _).
  rewrite emit_bind. unfold for_output_blobs.
  rewrite (bind_returned _ _ tt) by exact F1.
  rewrite Hf, !trace_after, !observe_app, (for_blobs_log env _ Hb).
  simpl. now rewrite app_nil_r.
Qed.

Lemma wait_log_passes (operation : Operation) (timeout : Z) :
  wait_passes operation timeout ->
  observe log_of (trace (wait operation timeout))
  = wait_log operation timeout.
Proof.
  unfold wait_passes, wait_log.
  destruct (operation_result operation timeout) as [[]|e] eqn:E; intros H.
  - now rewrite wait_returns.
  - now rewrite (wait_catches _ _ e), H.
Qed.

Section SucceededRun.

Variable env : Environment.
Variables project_id location processor_id : option string.
Variables gcs_output_uri gcs_input_prefix field_mask : option string.
Variable timeout : Z.
Variable operation : Operation.

Let run : M unit :=
  batch_process_documents env project_id location processor_id
    gcs_output_uri gcs_input_prefix field_mask timeout.
Let metadata : BatchProcessMetadata :=
  BatchProcessMetadata_of (operation_metadata operation).
Let before_storage : list event :=
  submit_events project_id location processor_id gcs_output_uri
    gcs_input_prefix field_mask
  ++ trace (wait operation timeout).

Hypothesis Hsubmitted :
  submitted env project_id location processor_id gcs_output_uri
    gcs_input_prefix field_mask operation.
Hypothesis Hwait : wait_passes operation timeout.
Hypothesis Hstate : state metadata = SUCCEEDED.

Lemma succeeded_run_walks (storage_client : StorageClient) :
  new_storage_Client env = Ok storage_client ->
  run = after (before_storage
               ++ [Call CreateStorageClient; Log INFO "Output files:" []])
          (walk env storage_client (individual_process_statuses metadata)).
Proof.
  intros Hc. unfold run, before_storage.
  rewrite (run_succeeded_state env _ _ _ _ _ _ _ _ Hsubmitted Hwait Hstate).
  unfold open_storage_and_walk, logging_info.
  rewrite (bind_returned _ _ storage_client) by (unfold call; now rewrite Hc).
  rewrite emit_bind, !after_after. fold metadata.
  now rewrite <- !app_assoc.
Qed.

Lemma succeeded_run_without_storage (e : sdk_exception) :
  new_storage_Client env = Err e ->
  run = (before_storage ++ [Call CreateStorageClient], Raised (Sdk e)).
Proof.
  intros Hc. unfold run, before_storage.
  rewrite (run_succeeded_state env _ _ _ _ _ _ _ _ Hsubmitted Hwait Hstate).
  unfold open_storage_and_walk.
  rewrite (bind_raised _ _ (Sdk e)) by (unfold call; now rewrite Hc).
  unfold call. now rewrite Hc.
Qed.

Lemma before_storage_silent :
  downloaded before_storage = []
  /\ observe listing_of before_storage = []
  /\ observe log_of before_storage = wait_log operation timeout.
Proof.
  unfold before_storage.
  rewrite downloaded_app, !observe_app, (downloaded_wait _ _ Hwait).
  rewrite (wait_log_passes _ _ Hwait). split; [reflexivity|].
  split; [|reflexivity].
  destruct (wait_trace_cases operation timeout) as [-> | [e ->]];
    reflexivity.
Qed.

End SucceededRun.

Lemma trace_pair {A} (tr : list event) (o : outcome A) : trace (tr, o) = tr.
Proof. reflexivity. Qed.

Lemma ending_pair {A} (tr : list event) (o : outcome A) : ending (tr, o) = o.
Proof. reflexivity. Qed.

(** C3, amended.  In a run whose wait returned or was caught and whose job
    terminal state is succeeded, the terminal-state check raises nothing
    and the program raises nothing of its own afterwards.  The run returns
    exactly when no SDK call after the check raises.  An exception raised
    by an SDK call is not caught and ends the run at that item: opening the
    storage client (nothing is listed), downloading or decoding a JSON-typed
    object (the objects before it were fetched, none after it), a listing
    that raises after its objects (no later entry is visited).  When no
    such call raises, the run has fetched every JSON-typed object of every
    parsable entry in order, and its log holds, in order, the record of the
    caught wait error, the unparsable entries as errors and the non-JSON
    objects as skipped. *)
Theorem succeeded_run_stops_exactly_at_sdk_failure
    (env : Environment)
    (project_id location processor_id
       gcs_output_uri gcs_input_prefix field_mask : option string)
    (timeout : Z) (operation : Operation) :
  let metadata := BatchProcessMetadata_of (operation_metadata operation) in
  let statuses := individual_process_statuses metadata in
  let run := batch_process_documents env project_id location processor_id
               gcs_output_uri gcs_input_prefix field_mask timeout in
  submitted env project_id location processor_id gcs_output_uri
    gcs_input_prefix field_mask operation ->
  wait_passes operation timeout ->
  state metadata = SUCCEEDED ->
  (forall ex, ending run = Raised ex -> exists e, ex = Sdk e)
  /\ (ending run = Returned tt
      <-> exists storage_client,
            new_storage_Client env = Ok storage_client
            /\ walk_succeeds env storage_client statuses)
  /\ (forall e,
        new_storage_Client env = Err e ->
        ending run = Raised (Sdk e)
        /\ observe listing_of (trace run) = []
        /\ downloaded (trace run) = [])
  /\ (forall storage_client,
        new_storage_Client env = Ok storage_client ->
        (forall before process later bucket prefix earlier blob rest e,
           statuses = before ++ process :: later ->
           walk_succeeds env storage_client before ->
           parse_destination (output_gcs_destination process)
           = Some (bucket, prefix) ->
           items (list_blobs storage_client bucket prefix)
           = earlier ++ blob :: rest ->
           Forall (blob_readable env) earlier ->
           not_json blob = false ->
           blob_document env blob = Err e ->
           ending run = Raised (Sdk e)
           /\ downloaded (trace run)
              = visited storage_client before ++ json_blobs earlier ++ [blob])
        /\ (forall before process later bucket prefix e,
              statuses = before ++ process :: later ->
              walk_succeeds env storage_client before ->
              parse_destination (output_gcs_destination process)
              = Some (bucket, prefix) ->
              failure (list_blobs storage_client bucket prefix) = Some e ->
              Forall (blob_readable env)
                (items (list_blobs storage_client bucket prefix)) ->
              ending run = Raised (Sdk e)
              /\ downloaded (trace run)
                 = visited storage_client before
                   ++ json_blobs
                        (items (list_blobs storage_client bucket prefix)))
        /\ (walk_succeeds env storage_client statuses ->
            ending run = Returned tt
            /\ downloaded (trace run) = visited storage_client statuses
            /\ observe log_of (trace run)
               = wait_log operation timeout
                 ++ [(INFO, "Output files:", [])]
                 ++ walk_log storage_client statuses)).
Proof.
  intros metadata statuses run Hsub Hw Hs.
  pose proof (before_storage_silent project_id location processor_id
                gcs_output_uri gcs_input_prefix field_mask timeout
                operation Hw) as (S1 & S2 & S3).
  assert (OK : forall storage_client,
             new_storage_Client env = Ok storage_client ->
             ending run = ending (walk env storage_client statuses)
             /\ downloaded (trace run)
                = downloaded (trace (walk env storage_client statuses))
             /\ observe log_of (trace run)
                = wait_log operation timeout
                  ++ [(INFO, "Output files:", [])]
                  ++ observe log_of
                       (trace (walk env storage_client statuses))).
  { intros storage_client Hc. unfold run.
    rewrite (succeeded_run_walks env _ _ _ _ _ _ _ _ Hsub Hw Hs
               storage_client Hc).
    rewrite ending_after, trace_after.
    set (pre := submit_events project_id location processor_id
                  gcs_output_uri gcs_input_prefix field_mask
                ++ trace (wait operation timeout)) in *.
    rewrite !downloaded_app, !observe_app, S1, S3.
    split; [reflexivity|]. split; [reflexivity|].
    now rewrite <- app_assoc. }
  split; [|split; [|split]].
  - intros ex. unfold run.
    rewrite (run_succeeded_state env _ _ _ _ _ _ _ _ Hsub Hw Hs).
    rewrite ending_after. apply sdk_only_open_storage_and_walk.
  - split.
    + intros H.
      destruct (new_storage_Client env) as [storage_client|e] eqn:Hc.
      * exists storage_client. split; [reflexivity|].
        apply walk_returned_succeeds.
        destruct (OK storage_client eq_refl) as (<- & _). exact H.
      * unfold run in H.
        rewrite (succeeded_run_without_storage env _ _ _ _ _ _ _ _
                   Hsub Hw Hs e Hc) in H.
        discriminate.
    + intros (storage_client & Hc & Hk).
      destruct (OK storage_client Hc) as (-> & _).
      now destruct (walk_succeeds_run env storage_client statuses Hk).
  - intros e Hc. unfold run.
    rewrite (succeeded_run_without_storage env _ _ _ _ _ _ _ _
               Hsub Hw Hs e Hc).
    rewrite trace_pair, ending_pair.
    set (pre := submit_events project_id location processor_id
                  gcs_output_uri gcs_input_prefix field_mask
                ++ trace (wait operation timeout)) in *.
    rewrite observe_app, downloaded_app, S1, S2. now repeat split.
  - intros storage_client Hc.
    destruct (OK storage_client Hc) as (E & D & L).
    split; [|split].
    + intros before process later bucket prefix earlier blob rest e
        Hst Hb Hp Hi He J Hd.
      destruct (process_status_fails_at_blob env storage_client process
                  bucket prefix earlier rest blob e Hp Hi He J Hd)
        as (P1 & P2).
      destruct (walk_stops_at env storage_client before later process
                  (Sdk e) Hb P1) as (W1 & W2).
      rewrite E, D. unfold statuses in Hst |- *. rewrite Hst.
      now rewrite W1, W2, P2.
    + intros before process later bucket prefix e Hst Hb Hp Hf Hr.
      destruct (process_status_fails_at_listing env storage_client process
                  bucket prefix e Hp Hf Hr) as (P1 & P2).
      destruct (walk_stops_at env storage_client before later process
                  (Sdk e) Hb P1) as (W1 & W2).
      rewrite E, D. unfold statuses in Hst |- *. rewrite Hst.
      now rewrite W1, W2, P2.
    + intros Hk.
      destruct (walk_succeeds_run env storage_client statuses Hk)
        as (W1 & _ & W3 & _).
      rewrite E, D, L, (walk_log_succeeds env storage_client statuses Hk).
      now repeat split.
Qed.

Lemma succeeded_run_stops_exactly_at_sdk_failure_witness :
  (ending
     (Scenario.run
        (Scenario.operation (Ok tt)
           (Scenario.metadata SUCCEEDED ""
              ["gs://bucket"; "gs://out-bucket/run/0/";
               "gs://out-bucket/run/0/"]))
        [Scenario.json_blob; Scenario.broken_blob; Scenario.json_blob])
   = Raised (Sdk Scenario.parse_error)
   /\ downloaded
        (trace
           (Scenario.run
              (Scenario.operation (Ok tt)
                 (Scenario.metadata SUCCEEDED ""
                    ["gs://bucket"; "gs://out-bucket/run/0/";
                     "gs://out-bucket/run/0/"]))
              [Scenario.json_blob; Scenario.broken_blob; Scenario.json_blob]))
      = [Scenario.json_blob; Scenario.broken_blob])
  /\ observe log_of
       (trace
          (Scenario.run
             (Scenario.operation (Err Scenario.deadline_exceeded)
                (Scenario.metadata SUCCEEDED ""
                   ["gs://out-bucket/run/0/"; "gs://bucket"]))
             [Scenario.json_blob; Scenario.text_blob]))
     = [(INFO,
         "Waiting for operation projects/p/locations/us/operations/1 to complete...",
         []);
        (ERROR, "Deadline of 400.0s exceeded", []);
        (INFO, "Output files:", []);
        (INFO, "Fetching run/0/0.json", []);
        (INFO,
         "Skipping non-supported file: run/0/0.pdf.txt - Mimetype: text/plain",
         []);
        (ERROR, "Could not parse output GCS destination:", ["gs://bucket"])].
Proof.
  split.
  - assert (Hb : walk_succeeds
                   (Scenario.env_of
                      (Scenario.operation (Ok tt)
                         (Scenario.metadata SUCCEEDED ""
                            ["gs://bucket"; "gs://out-bucket/run/0/";
                             "gs://out-bucket/run/0/"]))
                      [Scenario.json_blob; Scenario.broken_blob;
                       Scenario.json_blob])
                   (Scenario.storage_of
                      [Scenario.json_blob; Scenario.broken_blob;
                       Scenario.json_blob])
                   [Scenario.status "gs://bucket"])
      by (constructor; [exact I | constructor]).
    assert (He : Forall
                   (blob_readable
                      (Scenario.env_of
                         (Scenario.operation (Ok tt)
                            (Scenario.metadata SUCCEEDED ""
                               ["gs://bucket"; "gs://out-bucket/run/0/";
                                "gs://out-bucket/run/0/"]))
                         [Scenario.json_blob; Scenario.broken_blob;
                          Scenario.json_blob]))
                   [Scenario.json_blob]).
    { constructor; [|constructor].
      intros _. exists {| text := "Invoice 42" |}. reflexivity. }
    exact (proj1
             (proj2 (proj2 (proj2
                (succeeded_run_stops_exactly_at_sdk_failure _ _ _ _ _ _ _
                   default_timeout _
                   (scenario_submitted
                      (Scenario.operation (Ok tt)
                         (Scenario.metadata SUCCEEDED ""
                            ["gs://bucket"; "gs://out-bucket/run/0/";
                             "gs://out-bucket/run/0/"]))
                      [Scenario.json_blob; Scenario.broken_blob;
                       Scenario.json_blob])
                   I eq_refl)))
                (Scenario.storage_of
                   [Scenario.json_blob; Scenario.broken_blob;
                    Scenario.json_blob])
                eq_refl)
             [Scenario.status "gs://bucket"]
             (Scenario.status "gs://out-bucket/run/0/")
             [Scenario.status "gs://out-bucket/run/0/"]
             "out-bucket" "run/0/"
             [Scenario.json_blob] Scenario.broken_blob [Scenario.json_blob]
             Scenario.parse_error
             eq_refl Hb eq_refl eq_refl He eq_refl eq_refl).
  - assert (Hk : walk_succeeds
                   (Scenario.env_of
                      (Scenario.operation (Err Scenario.deadline_exceeded)
                         (Scenario.metadata SUCCEEDED ""
                            ["gs://out-bucket/run/0/"; "gs://bucket"]))
                      [Scenario.json_blob; Scenario.text_blob])
                   (Scenario.storage_of
                      [Scenario.json_blob; Scenario.text_blob])
                   [Scenario.status "gs://out-bucket/run/0/";
                    Scenario.status "gs://bucket"]).
    { constructor; [|constructor; [exact I | constructor]].
      split; [reflexivity|].
      constructor; [|constructor; [|constructor]].
      - intros _. exists {| text := "Invoice 42" |}. reflexivity.
      - intros H. discriminate H. }
    exact (proj2 (proj2
             (proj2 (proj2
                (proj2 (proj2 (proj2
                   (succeeded_run_stops_exactly_at_sdk_failure _ _ _ _ _ _ _
                      default_timeout _
                      (scenario_submitted
                         (Scenario.operation (Err Scenario.deadline_exceeded)
                            (Scenario.metadata SUCCEEDED ""
                               ["gs://out-bucket/run/0/"; "gs://bucket"]))
                         [Scenario.json_blob; Scenario.text_blob])
                      eq_refl eq_refl)))
                   (Scenario.storage_of
                      [Scenario.json_blob; Scenario.text_blob])
                   eq_refl))
                Hk))).
Defined.
